(** * Zotero export converter and tag analysis: a shallow embedding

    This development models the two scripts of the repository,
    [convert_zotero.py] (association of files to BibTeX entries, file
    organisation, tag normalisation, library construction) and
    [analysis.py] (text extraction, keyword classification, per-tag
    aggregation), and proves properties of the functions as they are written.

    Conventions of the model.
    - A Python [str] is a [string] over the 8-bit [ascii] alphabet.  Case
      mapping, whitespace and word-character classes are those of Python on
      the ASCII range; characters above 127 are kept as they are and belong to
      no class, which is not what Python does with them.  A property that
      depends on the classes or on the length of a text is therefore stated
      for text within the ASCII range ([is_ascii]), where the functions below
      are those of Python.
    - A [dict] with string keys is a [gmap string _]; a [set] of strings is a
      [gset string].
    - A [pathlib.Path] is the list of its parts, as [PurePosixPath.parts]
      gives them.
    - Code that may raise or that touches the outside world runs in the monad
      [M]: an outcome (a value or a raised exception) together with the
      sequence of observable events (standard output, directory creation,
      file copies, calls of the text extraction libraries). *)

From Stdlib Require Import Ascii String DecimalString DecimalNat.
From stdpp Require Import gmap strings list sorting.

Local Open Scope string_scope.
Local Open Scope list_scope.
Local Open Scope nat_scope.

(** ** Python built-ins on strings *)

Module Py.

Definition isspace (c : ascii) : bool :=
  let n := nat_of_ascii c in
  (Nat.leb 9 n && Nat.leb n 13) || (Nat.leb 28 n && Nat.leb n 32).

Definition isupper (c : ascii) : bool :=
  let n := nat_of_ascii c in Nat.leb 65 n && Nat.leb n 90.

Definition lower_char (c : ascii) : ascii :=
  if isupper c then ascii_of_nat (nat_of_ascii c + 32) else c.

(** [s.lower()] *)
Fixpoint lower (s : string) : string :=
  match s with
  | "" => ""
  | String c s' => String (lower_char c) (lower s')
  end.

(** [s.startswith(p)] *)
Fixpoint startswith (p s : string) : bool :=
  match p, s with
  | "", _ => true
  | String _ _, "" => false
  | String a p', String b s' => Ascii.eqb a b && startswith p' s'
  end.

(** [sub in s] *)
Fixpoint contains (sub s : string) : bool :=
  startswith sub s ||
  match s with
  | "" => false
  | String _ s' => contains sub s'
  end.

(** [s.endswith(suf)] *)
Fixpoint endswith (suf s : string) : bool :=
  String.eqb s suf ||
  match s with
  | "" => false
  | String _ s' => endswith suf s'
  end.

Definition cons_head (c : ascii) (ws : list string) : list string :=
  match ws with
  | [] => [String c ""]
  | w :: ws' => String c w :: ws'
  end.

(** [s.split(sep)] for a non-empty separator: [skip] counts the characters
    of a separator occurrence still to be passed over. *)
Fixpoint split_go (sep : string) (skip : nat) (s : string) : list string :=
  match s with
  | "" => [""]
  | String c s' =>
      match skip with
      | S k => split_go sep k s'
      | O =>
          if startswith sep s
          then "" :: split_go sep (String.length sep - 1) s'
          else cons_head c (split_go sep 0 s')
      end
  end.

Definition split (sep s : string) : list string := split_go sep 0 s.

(** [s.split()]: maximal runs of non-whitespace characters. *)
Fixpoint split_ws (s : string) : list string :=
  match s with
  | "" => []
  | String c s' =>
      if isspace c then split_ws s'
      else match s' with
           | "" => [String c ""]
           | String c' _ =>
               if isspace c' then String c "" :: split_ws s'
               else cons_head c (split_ws s')
           end
  end.

Fixpoint lstrip (s : string) : string :=
  match s with
  | "" => ""
  | String c s' => if isspace c then lstrip s' else s
  end.

Fixpoint rstrip (s : string) : string :=
  match s with
  | "" => ""
  | String c s' =>
      match rstrip s' with
      | "" => if isspace c then "" else String c ""
      | r => String c r
      end
  end.

(** [s.strip()] *)
Definition strip (s : string) : string := rstrip (lstrip s).

(** [s[:n]] *)
Fixpoint take (n : nat) (s : string) : string :=
  match n, s with
  | S n', String c s' => String c (take n' s')
  | _, _ => ""
  end.

(** [sep.join(l)] *)
Definition join (sep : string) (l : list string) : string := String.concat sep l.

(** [str(n)] and [f"{n}"] for a natural number. *)
Definition str_of_nat (n : nat) : string := NilEmpty.string_of_uint (Nat.to_uint n).

(** [s.replace(old, new)] for single characters. *)
Fixpoint replace_char (old new : ascii) (s : string) : string :=
  match s with
  | "" => ""
  | String c s' =>
      String (if Ascii.eqb c old then new else c) (replace_char old new s')
  end.

(** [re.sub] with a character class as pattern and the empty replacement:
    the characters of the class are deleted. *)
Fixpoint delete_chars (cls : ascii -> bool) (s : string) : string :=
  match s with
  | "" => ""
  | String c s' =>
      if cls c then delete_chars cls s' else String c (delete_chars cls s')
  end.

(** [re.sub(r'\s+', r, s)] for a one-character replacement: each maximal run
    of whitespace becomes one [r]. *)
Fixpoint sub_space_runs (r : ascii) (s : string) : string :=
  match s with
  | "" => ""
  | String c s' =>
      if isspace c then
        match s' with
        | "" => String r ""
        | String c' _ =>
            if isspace c' then sub_space_runs r s'
            else String r (sub_space_runs r s')
        end
      else String c (sub_space_runs r s')
  end.

(** The class [\w] on the ASCII range. *)
Definition isword (c : ascii) : bool :=
  let n := nat_of_ascii c in
  (Nat.leb 48 n && Nat.leb n 57) || (Nat.leb 65 n && Nat.leb n 90)
  || (Nat.leb 97 n && Nat.leb n 122) || Nat.eqb n 95.

(** [os.path.join(a, b)] on POSIX for a first argument without a final slash. *)
Definition os_path_join (a b : string) : string :=
  if startswith "/" b then b else a +:+ "/" +:+ b.

(** [s.replace(old, new)] for a non-empty [old], which Python computes as
    [new.join(s.split(old))]. *)
Definition replace (old new s : string) : string := String.concat new (split old s).

(** Truth value of a string. *)
Definition truthy (s : string) : bool := negb (String.eqb s "").

(** [sorted(l)] on strings: code-point order. *)
Definition sorted (l : list string) : list string := merge_sort String.le l.

End Py.

(** ** Tag normalisation ([extract_tags_from_entry]) *)

Definition tag_fields : list string := ["keywords"; "mendeley-tags"; "tags"; "annote"].

Definition newline : string := String (ascii_of_nat 10) "".

Definition delimiters : list string := [";"; ","; newline; "|"].

(** The [for delimiter in ...: ... break / else: ...] statement: the first
    delimiter of the list that occurs in [tag_text] splits it; the [else]
    branch runs when the loop ends without [break]. *)
Fixpoint split_on_delimiters (ds : list string) (tag_text : string)
    (tags : gset string) : gset string :=
  match ds with
  | [] =>
      if Py.truthy (Py.strip tag_text) then tags ∪ {[ Py.strip tag_text ]} else tags
  | delimiter :: ds' =>
      if Py.contains delimiter tag_text then
        let field_tags := Py.strip <$> Py.split delimiter tag_text in
        tags ∪ list_to_set (filter (λ tag, Py.truthy tag = true) field_tags)
      else split_on_delimiters ds' tag_text tags
  end.

Definition tags_of_fields (fields : list string) (entry : gmap string string)
    (tags : gset string) : gset string :=
  foldl (λ tags field,
           match entry !! field with
           | Some tag_text => split_on_delimiters delimiters tag_text tags
           | None => tags
           end) tags fields.

Definition extract_tags_from_entry (entry : gmap string string) : list string :=
  Py.sorted (elements (tags_of_fields tag_fields entry ∅)).

(** ** Paths, outcomes and events *)

(** A [pathlib.Path] as the list of its parts; an absolute path starts with
    the part ["/"]. *)
Abbreviation Path := (list string).

(** [Path(s)]: empty and ["."] segments are dropped.  (The root [//] that
    POSIX keeps apart from [/] is read as [/].) *)
Definition path_of_str (s : string) : Path :=
  let parts := filter (λ p, p ≠ "" ∧ p ≠ ".") (Py.split "/" s) in
  if Py.startswith "/" s then "/" :: parts else parts.

(** [p / s]: an absolute right operand replaces the left one. *)
Definition joinpath (p : Path) (s : string) : Path :=
  match path_of_str s with
  | "/" :: q => "/" :: q
  | q => p ++ q
  end.

(** [str(p)] *)
Definition path_str (p : Path) : string :=
  match p with
  | [] => "."
  | "/" :: q => "/" +:+ Py.join "/" q
  | _ => Py.join "/" p
  end.

(** [p.name] *)
Definition path_name (p : Path) : string :=
  match p with
  | ["/"] => ""
  | _ => List.last p ""
  end.

(** Exceptions, all of them subclasses of [Exception]; [LibraryError] stands
    for whatever the PDF and HTML libraries or [open] raise. *)
Inductive exn : Type :=
| IndexError (msg : string)
| ValueError (msg : string)
| LibraryError (msg : string).

(** [str(e)] *)
Definition exn_str (e : exn) : string :=
  match e with
  | IndexError msg | ValueError msg | LibraryError msg => msg
  end.

Inductive outcome (A : Type) : Type :=
| Ret (a : A)
| Raise (e : exn).
Arguments Ret {A} a.
Arguments Raise {A} e.

Inductive event : Type :=
| Print (line : string)
| Mkdir (dir : Path)
| Copy (src dst : Path)
| OpenPdf (path : string)
| OpenHtml (path : string).

(** Computations: an outcome and the events that happened up to it. *)
Definition M (A : Type) : Type := outcome A * list event.

Global Instance M_ret : MRet M := λ A a, (Ret a, []).

Global Instance M_bind : MBind M := λ A B f m,
  match m with
  | (Ret a, t) => let '(r, t') := f a in (r, t ++ t')
  | (Raise e, t) => (Raise e, t)
  end.

Definition raise {A} (e : exn) : M A := (Raise e, []).

Definition emit (ev : event) : M unit := (Ret tt, [ev]).

Definition lift {A} (o : outcome A) : M A := (o, []).

(** [try: m  except Exception as e: h e] *)
Definition try_except {A} (m : M A) (h : exn -> M A) : M A :=
  match m with
  | (Ret a, t) => (Ret a, t)
  | (Raise e, t) => let '(r, t') := h e in (r, t ++ t')
  end.

Fixpoint mapM {A B} (f : A -> M B) (l : list A) : M (list B) :=
  match l with
  | [] => mret []
  | a :: l' => b ← f a; bs ← mapM f l'; mret (b :: bs)
  end.

(** [p.relative_to(base)] *)
Definition relative_to (p base : Path) : outcome Path :=
  if decide (base `prefix_of` p) then Ret (drop (length base) p)
  else Raise (ValueError (path_str p +:+ " is not in the subpath of " +:+ path_str base)).

(** [l[-1]] *)
Definition last_item (l : list string) : outcome string :=
  match l with
  | [] => Raise (IndexError "list index out of range")
  | _ => Ret (List.last l "")
  end.

(** ** File association ([parse_zotero_file_field], [find_pdf_in_files_folder]) *)

(** What the converter reads from the file system: [Path.exists] and
    [Path.glob], the latter with its results in iteration order.  Either
    call can raise: [Path.glob] refuses some patterns with a [ValueError],
    and both pass on the errors of the operating system.  The folder of
    candidate files is only read, never written, during a run. *)
Record FileSystem : Type := {
  fs_exists : Path -> outcome bool;
  fs_glob : Path -> string -> outcome (list Path)
}.

(** [os.path.exists(p)], which answers [False] where [Path.exists] raises. *)
Definition os_path_exists (fs : FileSystem) (p : Path) : bool :=
  match fs_exists fs p with
  | Ret b => b
  | Raise _ => false
  end.

Record file_info : Type := { filename : string; path : string }.

(** One [;]-separated part of the field: [filename:path:mimetype]. *)
Definition parse_part (part : string) : list file_info :=
  if Py.contains ":" part then
    match Py.split ":" part with
    | c0 :: c1 :: _ =>
        let filename := Py.strip c0 in
        let path := Py.strip c1 in
        if Py.truthy filename && Py.truthy path
        then [ {| filename := filename; path := path |} ]
        else []
    | _ => []
    end
  else [].

Definition parse_zotero_file_field (file_field : string) : list file_info :=
  if Py.truthy file_field
  then flat_map parse_part (Py.split ";" file_field)
  else [].

(** Method 1, body of the loop over the parsed file field: the paths one
    tuple adds to [found_pdfs]. *)
Definition file_field_matches (fs : FileSystem) (files_path : Path)
    (fi : file_info) : outcome (list Path) :=
  if Py.endswith ".pdf" (Py.lower (filename fi)) then
    let pdf_path := joinpath files_path (path fi) in
    match fs_exists fs pdf_path with
    | Ret true => Ret [pdf_path]
    | Ret false => fs_glob fs files_path ("**/" +:+ filename fi)
    | Raise e => Raise e
    end
  else Ret [].

(** Method 1, the loop: the matches of each tuple are appended to
    [found_pdfs] in turn; an exception ends the loop and the function. *)
Fixpoint collect_matches (fs : FileSystem) (files_path : Path)
    (zotero_files : list file_info) (found_pdfs : list Path) : outcome (list Path) :=
  match zotero_files with
  | [] => Ret found_pdfs
  | fi :: rest =>
      match file_field_matches fs files_path fi with
      | Ret matches => collect_matches fs files_path rest (found_pdfs ++ matches)
      | Raise e => Raise e
      end
  end.

(** Method 1: use the file field if available. *)
Definition method1 (fs : FileSystem) (entry : gmap string string)
    (files_path : Path) : outcome (list Path) :=
  match entry !! "file" with
  | Some file_field =>
      collect_matches fs files_path (parse_zotero_file_field file_field) []
  | None => Ret []
  end.

Definition title_words (title : string) : list string :=
  Py.lower <$> filter (λ word, 3 < String.length word) (Py.split_ws title).

(** Method 2, body of the loop over all PDF files. *)
Definition id_or_title_matches (entry_id title : string) (pdf_file : Path) : bool :=
  let filename_lower := Py.lower (path_name pdf_file) in
  if Py.truthy entry_id && Py.contains (Py.lower entry_id) filename_lower then true
  else if Py.truthy title
       then existsb (λ word, Py.contains word filename_lower) (take 3 (title_words title))
       else false.

(** Method 2: search by entry ID or title. *)
Definition method2 (fs : FileSystem) (entry : gmap string string)
    (files_path : Path) : outcome (list Path) :=
  let entry_id := default "" (entry !! "ID") in
  let title := default "" (entry !! "title") in
  match fs_glob fs files_path "**/*.pdf" with
  | Ret pdf_files =>
      Ret (filter (λ pdf_file, id_or_title_matches entry_id title pdf_file = true)
                  pdf_files)
  | Raise e => Raise e
  end.

(** [files_dir] is the [Path] the driver passes, which is never falsy, so the
    guard of the source reduces to the existence test of [os.path.exists].
    Method 2 runs when Method 1 has left [found_pdfs] empty. *)
Definition find_pdf_in_files_folder (fs : FileSystem) (entry : gmap string string)
    (files_dir : Path) : outcome (list Path) :=
  if negb (os_path_exists fs files_dir) then Ret []
  else
    match method1 fs entry files_dir with
    | Ret [] => method2 fs entry files_dir
    | Ret found_pdfs => Ret found_pdfs
    | Raise e => Raise e
    end.

(** ** Categories and file names ([categorize_entry], [clean_filename]) *)

Definition categories_table : gmap string string :=
  list_to_map
    [ ("article", "journal_articles"); ("inproceedings", "conference_papers");
      ("proceedings", "conference_papers"); ("book", "books");
      ("incollection", "book_chapters"); ("inbook", "book_chapters");
      ("techreport", "reports"); ("report", "reports");
      ("phdthesis", "theses"); ("mastersthesis", "theses"); ("thesis", "theses");
      ("patent", "patents"); ("misc", "miscellaneous");
      ("unpublished", "preprints"); ("online", "web_resources");
      ("webpage", "web_resources"); ("software", "software");
      ("dataset", "datasets") ].

Definition categorize_entry (entry : gmap string string) : string :=
  let entry_type := Py.lower (default "" (entry !! "ENTRYTYPE")) in
  default "uncategorized" (categories_table !! entry_type).

(** The characters of the first pattern: less-than, greater-than, colon,
    double quote, slash, backslash, bar, question mark and star. *)
Definition problematic (c : ascii) : bool :=
  bool_decide (nat_of_ascii c ∈ [60; 62; 58; 34; 47; 92; 124; 63; 42]).

(** The characters of the third pattern: anything but a word character, a
    whitespace character or a dash. *)
Definition special (c : ascii) : bool :=
  negb (Py.isword c || Py.isspace c || Nat.eqb (nat_of_ascii c) 45).

Definition clean_filename (text : string) : string :=
  if negb (Py.truthy text) then "untitled"
  else
    let text := Py.delete_chars problematic text in
    let text := Py.sub_space_runs "_" text in
    let text := Py.delete_chars special text in
    Py.take 80 text.

(** ** File organisation ([organize_pdf_files]) *)

(** The first author's last name, before cleaning. *)
Definition first_author_name (author_text : string) : outcome string :=
  let first_author :=
    if Py.contains " and " author_text
    then hd "" (Py.split " and " author_text)
    else hd "" (Py.split "," author_text) in
  if Py.contains "," first_author
  then Ret (Py.strip (hd "" (Py.split "," first_author)))
  else last_item (Py.split_ws first_author).

Definition numbered_filename (base_filename : string) (count i : nat) : string :=
  if 1 <? count
  then base_filename +:+ "_" +:+ Py.str_of_nat (i + 1) +:+ ".pdf"
  else base_filename +:+ ".pdf".

(** The loop over [enumerate(pdf_files)], from index [i] on. *)
Fixpoint copy_files (output_dir target_dir : Path) (base_filename : string)
    (count i : nat) (pdf_files : list Path) : M (list string) :=
  match pdf_files with
  | [] => mret []
  | pdf_file :: rest =>
      let target_path := joinpath target_dir (numbered_filename base_filename count i) in
      emit (Copy pdf_file target_path);;
      relative_path ← lift (relative_to target_path output_dir);
      organized ← copy_files output_dir target_dir base_filename count (S i) rest;
      mret (path_str relative_path :: organized)
  end.

(** Directory creation and copies are recorded as events and taken to
    succeed. *)
Definition organize_pdf_files (pdf_files : list Path) (entry : gmap string string)
    (output_dir : Path) : M (list string) :=
  match pdf_files with
  | [] => mret []
  | _ =>
      let year := default "unknown" (entry !! "year") in
      let category := categorize_entry entry in
      let target_dir := joinpath (joinpath (joinpath output_dir "documents") category) year in
      emit (Mkdir target_dir);;
      first_author ←
        match entry !! "author" with
        | Some author_text =>
            name ← lift (first_author_name author_text);
            mret (clean_filename name)
        | None => mret ""
        end;
      let title := clean_filename (default "untitled" (entry !! "title")) in
      let base_filename := first_author +:+ "_" +:+ year +:+ "_" +:+ title in
      copy_files output_dir target_dir base_filename (length pdf_files) 0 pdf_files
  end.

(** ** Library construction ([process_bibtex_export]) *)

(** A document of the library: the string-valued keys of the dictionary
    ([id], [title], ..., and the [extra_] keys) and its other keys by type. *)
Record DocumentRecord : Type := {
  doc_fields : gmap string string;
  doc_tags : list string;
  doc_file_paths : list string;
  doc_has_pdf : bool;
  doc_pdf_count : nat
}.

Definition known_fields : list string :=
  [ "ID"; "ENTRYTYPE"; "title"; "author"; "year"; "journal"; "booktitle";
    "publisher"; "volume"; "number"; "pages"; "doi"; "url"; "isbn"; "issn";
    "abstract"; "note"; "file" ].

Definition copied_fields : list string :=
  [ "journal"; "booktitle"; "publisher"; "volume"; "number"; "pages"; "doi";
    "url"; "isbn"; "issn"; "abstract"; "note" ].

Definition document_fields (i : nat) (entry : gmap string string)
    (title year category : string) : gmap string string :=
  list_to_map
    ([ ("id", default ("doc_" +:+ Py.str_of_nat i) (entry !! "ID"));
       ("title", title);
       ("authors", Py.replace " and " ", " (default "" (entry !! "author")));
       ("year", year) ]
     ++ ((λ field, (field, default "" (entry !! field))) <$> copied_fields)
     ++ [ ("category", category);
          ("entry_type", default "" (entry !! "ENTRYTYPE")) ]).

(** The loop adding any additional fields. *)
Definition add_extra_fields (entry doc : gmap string string) : gmap string string :=
  map_fold (λ key value doc,
              if bool_decide (key ∉ known_fields) && Py.truthy value
              then <["extra_" +:+ key := value]> doc
              else doc) doc entry.

Record library_state : Type := {
  documents : list DocumentRecord;
  categories : gmap string nat;
  all_tags : gset string;
  years : gset string;
  pdf_count : nat
}.

Definition empty_library : library_state :=
  {| documents := []; categories := ∅; all_tags := ∅; years := ∅; pdf_count := 0 |}.

(** Body of the loop over [enumerate(bib_database.entries)]. *)
Definition process_entry (fs : FileSystem) (files_dir output_path : Path)
    (i : nat) (entry : gmap string string) (st : library_state) : M library_state :=
  let title := default "Untitled" (entry !! "title") in
  let tags := extract_tags_from_entry entry in
  pdf_files ← lift (find_pdf_in_files_folder fs entry files_dir);
  organized_files ← organize_pdf_files pdf_files entry output_path;
  let year := default "" (entry !! "year") in
  let category := categorize_entry entry in
  let doc :=
    {| doc_fields := add_extra_fields entry (document_fields i entry title year category);
       doc_tags := tags;
       doc_file_paths := organized_files;
       doc_has_pdf := bool_decide (0 < length organized_files);
       doc_pdf_count := length organized_files |} in
  mret {| documents := documents st ++ [doc];
          categories := <[category := default 0 (categories st !! category) + 1]> (categories st);
          all_tags := all_tags st ∪ list_to_set tags;
          years := if Py.truthy year then years st ∪ {[ year ]} else years st;
          pdf_count := match organized_files with
                       | [] => pdf_count st
                       | _ => pdf_count st + 1
                       end |}.

Fixpoint process_entries (fs : FileSystem) (files_dir output_path : Path)
    (i : nat) (entries : list (gmap string string)) (st : library_state)
    : M library_state :=
  match entries with
  | [] => mret st
  | entry :: rest =>
      st' ← process_entry fs files_dir output_path i entry st;
      process_entries fs files_dir output_path (S i) rest st'
  end.

(** The driver, from the parsed entries to the end of the loop over them:
    the parse of the [.bib] file is its input and the library it returns is
    the one [save_database_files] is then called with.  The progress lines
    on standard output and the files [save_database_files] writes are left
    out: the events of a run are its directory creations and its copies. *)
Definition process_bibtex_export (fs : FileSystem) (entries : list (gmap string string))
    (export_path output_path : Path) : M library_state :=
  let files_dir := joinpath export_path "files" in
  emit (Mkdir output_path);;
  emit (Mkdir (joinpath output_path "metadata"));;
  emit (Mkdir (joinpath output_path "documents"));;
  process_entries fs files_dir output_path 0 entries empty_library.

(** ** Text extraction ([analysis.py]) *)

Definition KEYWORDS : list string :=
  [ "environment"; "climate"; "energy"; "sustainability"; "carbon"; "emission";
    "renewable"; "net zero"; "green" ].

Definition SEARCH_FIELDS : list string := ["title"; "abstract"; "note"; "extra_keywords"].

(** The two libraries behind the extractors.  [PdfReader_pages] is
    [PdfReader(path).pages]: the call may raise, and so may each page's
    [extract_text()], which otherwise gives [None] or a string.
    [soup_get_text] is the opening of the file, its parse and
    [get_text(separator=' ', strip=True)]. *)
Record Extractors : Type := {
  PdfReader_pages : string -> outcome (list (outcome (option string)));
  soup_get_text : string -> outcome string
}.

(** [page.extract_text() or ''] *)
Definition page_text (page : outcome (option string)) : M string :=
  text ← lift page; mret (default "" text).

(** The body of the [try] of [extract_text_from_pdf]. *)
Definition read_pdf (ex : Extractors) (pdf_path : string) : M string :=
  emit (OpenPdf pdf_path);;
  pages ← lift (PdfReader_pages ex pdf_path);
  texts ← mapM page_text pages;
  mret (Py.join newline texts).

Definition pdf_warning (pdf_path : string) (e : exn) : string :=
  "[WARN] Could not read PDF: " +:+ pdf_path +:+ " (" +:+ exn_str e +:+ ")".

Definition extract_text_from_pdf (ex : Extractors) (pdf_path : string) : M string :=
  try_except (read_pdf ex pdf_path)
    (λ e, emit (Print (pdf_warning pdf_path e));; mret "").

(** The body of the [try] of [extract_text_from_html]. *)
Definition read_html (ex : Extractors) (html_path : string) : M string :=
  emit (OpenHtml html_path);;
  lift (soup_get_text ex html_path).

Definition html_warning (html_path : string) (e : exn) : string :=
  "[WARN] Could not read HTML: " +:+ html_path +:+ " (" +:+ exn_str e +:+ ")".

Definition extract_text_from_html (ex : Extractors) (html_path : string) : M string :=
  try_except (read_html ex html_path)
    (λ e, emit (Print (html_warning html_path e));; mret "").

Definition backslash : ascii := ascii_of_nat 92.

(** The loop of [extract_fulltext_from_files], with [fulltext] as built so
    far. *)
Fixpoint extract_fulltext_loop (ex : Extractors) (file_paths : list string)
    (fulltext : string) : M string :=
  match file_paths with
  | [] => mret fulltext
  | rel_path :: rest =>
      let abs_path :=
        Py.os_path_join "AIPolicies_db" (Py.replace_char backslash "/" rel_path) in
      fulltext' ←
        (if Py.endswith ".pdf" (Py.lower abs_path) then
           text ← extract_text_from_pdf ex abs_path;
           mret (fulltext +:+ text +:+ newline)
         else if Py.endswith ".html" (Py.lower abs_path) then
           text ← extract_text_from_html ex abs_path;
           mret (fulltext +:+ text +:+ newline)
         else mret fulltext);
      extract_fulltext_loop ex rest fulltext'
  end.

Definition extract_fulltext_from_files (ex : Extractors) (file_paths : list string)
    : M string :=
  extract_fulltext_loop ex file_paths "".

(** ** Keyword classification and aggregation *)

(** [any(kw in text_lower for kw in KEYWORDS)], the inner loops of the
    classifier. *)
Definition mentions_keyword (text_lower : string) : bool :=
  existsb (λ kw, Py.contains kw text_lower) KEYWORDS.

(** The loop over the metadata fields. *)
Definition metadata_match (doc : DocumentRecord) : bool :=
  existsb (λ field,
             let value := default "" (doc_fields doc !! field) in
             Py.truthy value && mentions_keyword (Py.lower value))
          SEARCH_FIELDS.

Definition document_references_environment (ex : Extractors) (doc : DocumentRecord)
    : M bool :=
  if metadata_match doc then mret true
  else
    match doc_file_paths doc with
    | [] => mret false
    | file_paths =>
        fulltext ← extract_fulltext_from_files ex file_paths;
        mret (mentions_keyword (Py.lower fulltext))
    end.

(** [counts[tag] += 1] on a [defaultdict(int)]. *)
Definition increment (tag : string) (counts : gmap string nat) : gmap string nat :=
  <[tag := default 0 (counts !! tag) + 1]> counts.

Definition count_tags (tags : list string) (counts : gmap string nat) : gmap string nat :=
  foldl (λ counts tag, increment tag counts) counts tags.

(** The loop of [group_stats_by_tag], with the two counters as built so far. *)
Fixpoint group_stats_loop (ex : Extractors) (docs : list DocumentRecord)
    (tag_env_counts tag_total_counts : gmap string nat)
    : M (gmap string nat * gmap string nat) :=
  match docs with
  | [] => mret (tag_env_counts, tag_total_counts)
  | doc :: rest =>
      let tags := doc_tags doc in
      let tag_total_counts := count_tags tags tag_total_counts in
      relevant ← document_references_environment ex doc;
      let tag_env_counts :=
        if (relevant : bool) then count_tags tags tag_env_counts else tag_env_counts in
      group_stats_loop ex rest tag_env_counts tag_total_counts
  end.

Definition group_stats_by_tag (ex : Extractors) (docs : list DocumentRecord)
    : M (gmap string nat * gmap string nat) :=
  group_stats_loop ex docs ∅ ∅.

(** [d.setdefault(tag, 0)] for every tag of the filter. *)
Definition set_defaults (filter_set : gset string) (counts : gmap string nat)
    : gmap string nat :=
  set_fold (λ tag counts,
              match counts !! tag with
              | Some _ => counts
              | None => <[tag := 0]> counts
              end) counts filter_set.

Definition filter_tags (tag_env_counts tag_total_counts : gmap string nat)
    (filter_set : gset string) : gmap string nat * gmap string nat :=
  let env := filter (λ kv, kv.1 ∈ filter_set) tag_env_counts in
  let total := filter (λ kv, kv.1 ∈ filter_set) tag_total_counts in
  (set_defaults filter_set env, set_defaults filter_set total).

(** ** A concrete file system, for examples

    The tree is given by the list of its files.  A path exists when it is a
    file of the tree or a directory above one; the two shapes of pattern the
    converter uses are matched against the file name: every name ending in
    [.pdf], or one literal name. *)

Definition tree_exists (files : list Path) (p : Path) : bool :=
  existsb (λ file, bool_decide (p `prefix_of` file)) files.

Definition tree_glob (files : list Path) (root : Path) (pattern : string) : list Path :=
  let under := filter (λ file, root `prefix_of` file) files in
  if String.eqb pattern "**/*.pdf"
  then filter (λ file, Py.endswith ".pdf" (path_name file) = true) under
  else filter (λ file, "**/" +:+ path_name file = pattern) under.

Definition tree_fs (files : list Path) : FileSystem :=
  {| fs_exists := λ p, Ret (tree_exists files p);
     fs_glob := λ root pattern, Ret (tree_glob files root pattern) |}.

(** ** What the specification calls a case-insensitive occurrence *)

(** [kw] occurs in [text] up to case: some substring of [text] has the same
    lower-case form as [kw]. *)
Definition ci_occurs (kw text : string) : Prop :=
  ∃ pre mid post, text = pre +:+ mid +:+ post ∧ Py.lower mid = Py.lower kw.

(** Some keyword occurs, up to case, in one of the metadata fields. *)
Definition metadata_mentions (doc : DocumentRecord) : Prop :=
  ∃ field kw, field ∈ SEARCH_FIELDS ∧ kw ∈ KEYWORDS
              ∧ ci_occurs kw (default "" (doc_fields doc !! field)).

(** Some keyword occurs, up to case, in [text]. *)
Definition text_mentions (text : string) : Prop :=
  ∃ kw, kw ∈ KEYWORDS ∧ ci_occurs kw text.

(** The value a counter dictionary gives for [tag], zero when absent. *)
Definition count_of (counts : gmap string nat) (tag : string) : nat :=
  default 0 (counts !! tag).

(** Every relevant count is backed by a total count at least as large. *)
Definition bounded (env total : gmap string nat) : Prop :=
  ∀ tag n, env !! tag = Some n → ∃ m, total !! tag = Some m ∧ n ≤ m.

(** What [set_defaults] leaves in the dictionary, for the tags of [X]. *)
Definition defaults_set (counts : gmap string nat) (X : gset string)
    (r : gmap string nat) : Prop :=
  ∀ tag : string,
    r !! tag = match counts !! tag with
               | Some n => Some n
               | None => if decide (tag ∈ X) then Some 0 else None
               end.

(** ** Extractors for examples *)

(** A PDF library that fails on every file, and an HTML library that gives
    the same short text for every file. *)
Definition broken_pdf : Extractors :=
  {| PdfReader_pages := λ _, Raise (LibraryError "EOF marker not found");
     soup_get_text := λ _, Ret "Minutes of the council" |}.

(** A PDF library that reads one page of text from every file. *)
Definition one_page : Extractors :=
  {| PdfReader_pages := λ _, Ret [Ret (Some "Annual budget report")];
     soup_get_text := λ _, Ret "Minutes of the council" |}.

(** A PDF library that reads three pages from every file, the second one
    without text, and an HTML library that fails on every file. *)
Definition solar_pages : Extractors :=
  {| PdfReader_pages :=
       λ _, Ret [Ret (Some "Budget"); Ret None; Ret (Some "Solar ENERGY fund")];
     soup_get_text := λ _, Raise (LibraryError "no such file") |}.

(** A document without keyword in its metadata, with a PDF file, a text
    file and an HTML file. *)
Definition budget_doc : DocumentRecord :=
  {| doc_fields := {[ "id" := "city2020"; "title" := "Annual budget" ]};
     doc_tags := ["City"];
     doc_file_paths := ["documents/reports/2020/Budget.pdf";
                        "documents/reports/2020/Budget.txt";
                        "documents/web_resources/2020/Budget.html"];
     doc_has_pdf := true;
     doc_pdf_count := 3 |}.

Definition carbon_doc : DocumentRecord :=
  {| doc_fields := {[ "id" := "doe2020"; "title" := "Carbon Markets" ]};
     doc_tags := ["State"];
     doc_file_paths := ["documents/reports/2020/Doe_2020_Carbon_Markets.pdf"];
     doc_has_pdf := true;
     doc_pdf_count := 1 |}.

(** ** Entries and trees for examples *)

Definition files_root : Path := ["export"; "files"].

Definition net_zero_entry : gmap string string :=
  {[ "ID" := "smith2021"; "ENTRYTYPE" := "article"; "author" := "Smith, John";
     "year" := "2021"; "title" := "Net Zero Pathways";
     "file" := "paper.pdf:files/ABC/paper.pdf:application/pdf" ]}.

Definition net_zero_tree : FileSystem :=
  tree_fs [["export"; "files"; "files"; "ABC"; "paper.pdf"]].

(** An entry with two attached PDF files and no author. *)
Definition two_files_entry : gmap string string :=
  {[ "ID" := "epa2019"; "ENTRYTYPE" := "techreport"; "title" := "Clean Air: Plan";
     "file" := "a.pdf:docs/a.pdf:application/pdf;b.PDF:docs/b.PDF:application/pdf" ]}.

Definition two_files_tree : FileSystem :=
  tree_fs [["export"; "files"; "docs"; "a.pdf"]; ["export"; "files"; "docs"; "b.PDF"]].

(** An entry whose only attachment is an HTML snapshot. *)
Definition snapshot_entry : gmap string string :=
  {[ "ID" := "k1"; "ENTRYTYPE" := "online"; "title" := "On AI";
     "file" := "index.html:site/index.html:text/html" ]}.

Definition snapshot_tree : FileSystem :=
  tree_fs [["export"; "files"; "site"; "index.html"]].

(** The entry above with an empty author field. *)
Definition blank_author_entry : gmap string string :=
  <["author" := ""]> net_zero_entry.

(** Two entries of one [.bib] file under the same citation key. *)
Definition same_key_entries : list (gmap string string) :=
  [ {[ "ID" := "smith2020"; "ENTRYTYPE" := "article"; "title" := "First" ]};
    {[ "ID" := "smith2020"; "ENTRYTYPE" := "report"; "title" := "Second" ]} ].

(** Entries without and with a citation key. *)
Definition mixed_entries : list (gmap string string) :=
  [ {[ "ENTRYTYPE" := "misc"; "title" := "First" ]};
    {[ "ID" := "lee2019"; "ENTRYTYPE" := "report"; "title" := "Second" ]};
    {[ "ENTRYTYPE" := "misc"; "title" := "Third" ]} ].

(** A keyword field that ends with a semicolon. *)
Definition trailing_semicolon_entry : gmap string string :=
  {[ "keywords" := "energy, climate;" ]}.

(** A keyword field with one tag. *)
Definition one_tag_entry : gmap string string :=
  {[ "keywords" := " Climate Policy " ]}.

(** The identifiers of the documents of a library, in order. *)
Definition document_ids (st : library_state) : list (option string) :=
  (λ doc, doc_fields doc !! "id") <$> documents st.

(** ** Identifiers of entries *)

(** The identifier the driver gives to the entry at position [i]. *)
Definition entry_id (i : nat) (entry : gmap string string) : string :=
  default ("doc_" +:+ Py.str_of_nat i) (entry !! "ID").

(** No two entries have the same citation key. *)
Definition keys_distinct (entries : list (gmap string string)) : Prop :=
  ∀ i j ei ej key,
    entries !! i = Some ei → entries !! j = Some ej →
    ei !! "ID" = Some key → ej !! "ID" = Some key → i = j.

(** No citation key is the positional identifier of an entry without key. *)
Definition no_positional_key (entries : list (gmap string string)) : Prop :=
  ∀ i j ei ej,
    entries !! i = Some ei → entries !! j = Some ej →
    ej !! "ID" = None → ei !! "ID" ≠ Some ("doc_" +:+ Py.str_of_nat j).

(** ** Reads of the file system that answer *)


(** ** Normal tags *)

(** [p] is a substring of [s]. *)
Definition substr (p s : string) : Prop := ∃ pre post, s = pre +:+ p +:+ post.

(** What every tag of a normalised set satisfies: it is not empty, it has no
    whitespace at either end, and it has no semicolon. *)
Definition normal_tag (t : string) : Prop :=
  Py.truthy t = true ∧ Py.strip t = t ∧ Py.contains ";" t = false.

(** ** Notions for the properties of the other functions *)

(** The category buckets. *)
Definition category_names : list string :=
  [ "journal_articles"; "conference_papers"; "books"; "book_chapters"; "reports";
    "theses"; "patents"; "miscellaneous"; "preprints"; "web_resources";
    "software"; "datasets"; "uncategorized" ].

(** Every character of [s] satisfies [P]. *)
Fixpoint all_chars (P : ascii → bool) (s : string) : bool :=
  match s with
  | "" => true
  | String c s' => P c && all_chars P s'
  end.

(** A letter, a digit, an underscore or a dash. *)
Definition safe_char (c : ascii) : bool :=
  Py.isword c || Nat.eqb (nat_of_ascii c) 45.

(** The first three words of the title that have more than three
    characters, as written in the title. *)
Definition long_title_words (title : string) : list string :=
  take 3 (filter (λ word, 3 < String.length word) (Py.split_ws title)).

(** The number of entries of a category. *)
Definition count_category (category : string) (entries : list (gmap string string)) : nat :=
  length (filter (λ entry, categorize_entry entry = category) entries).

(** The entry fields that end up in the fields the classifier searches. *)
Definition searched_entry_fields : list string := ["title"; "abstract"; "note"; "keywords"].

(** Some keyword occurs, up to case, in one of those entry fields. *)
Definition entry_mentions (entry : gmap string string) : Prop :=
  ∃ field kw, field ∈ searched_entry_fields ∧ kw ∈ KEYWORDS
              ∧ ci_occurs kw (default "" (entry !! field)).

(** The source files of the copies in a trace, in order. *)
Definition copy_sources (evs : list event) : list Path :=
  omap (λ ev, match ev with Copy src _ => Some src | _ => None end) evs.

(** A string that is one plain segment of a path. *)
Definition plain_segment (s : string) : Prop :=
  Py.contains "/" s = false ∧ s ≠ "" ∧ s ≠ ".".

(** The document the driver builds for the entry at position [i], given the
    organised files, and the state of the library after it. *)
Definition document_of (i : nat) (entry : gmap string string)
    (organized_files : list string) : DocumentRecord :=
  {| doc_fields :=
       add_extra_fields entry
         (document_fields i entry (default "Untitled" (entry !! "title"))
            (default "" (entry !! "year")) (categorize_entry entry));
     doc_tags := extract_tags_from_entry entry;
     doc_file_paths := organized_files;
     doc_has_pdf := bool_decide (0 < length organized_files);
     doc_pdf_count := length organized_files |}.

Definition state_after (i : nat) (entry : gmap string string)
    (organized_files : list string) (st : library_state) : library_state :=
  {| documents := documents st ++ [document_of i entry organized_files];
     categories := <[categorize_entry entry :=
                       default 0 (categories st !! categorize_entry entry) + 1]>
                     (categories st);
     all_tags := all_tags st ∪ list_to_set (extract_tags_from_entry entry);
     years := if Py.truthy (default "" (entry !! "year"))
              then years st ∪ {[ default "" (entry !! "year") ]}
              else years st;
     pdf_count := match organized_files with
                  | [] => pdf_count st
                  | _ => pdf_count st + 1
                  end |}.

(** The keys every document has, besides its [extra_] keys. *)
Definition schema_fields : list string :=
  ["id"; "title"; "authors"; "year"] ++ copied_fields ++ ["category"; "entry_type"].

(** How often [tag] stands in a list of tags. *)
Definition occurrences (tag : string) (tags : list string) : nat :=
  length (filter (λ t, t = tag) tags).

(** The answer of the classifier on a document. *)
Definition is_relevant (ex : Extractors) (doc : DocumentRecord) : bool :=
  match (document_references_environment ex doc).1 with
  | Ret relevant => relevant
  | Raise _ => false
  end.

(** The path under which the analysis opens a file of the library. *)
Definition library_path (rel_path : string) : string :=
  Py.os_path_join "AIPolicies_db" (Py.replace_char backslash "/" rel_path).

(** The files the full-text extraction reads: the PDF and HTML files. *)
Definition is_extracted (rel_path : string) : bool :=
  Py.endswith ".pdf" (Py.lower (library_path rel_path))
  || Py.endswith ".html" (Py.lower (library_path rel_path)).

(** ** Text within the ASCII range *)

(** Every character of [s] is an ASCII character. *)
Definition is_ascii (s : string) : Prop :=
  all_chars (λ c, nat_of_ascii c <? 128) s = true.

(** The field of the entry, when present, is within the ASCII range. *)
Definition ascii_field (entry : gmap string string) (field : string) : Prop :=
  ∀ text, entry !! field = Some text → is_ascii text.

(** The directories a trace creates, in order. *)
Definition created_dirs (evs : list event) : list Path :=
  omap (λ ev, match ev with Mkdir dir => Some dir | _ => None end) evs.

(** ** The text of the files of a document, as the specification words it *)

(** The texts of the pages of a PDF file when every page can be read, a page
    without text counting as the empty text. *)
Fixpoint page_texts (pages : list (outcome (option string))) : option (list string) :=
  match pages with
  | [] => Some []
  | Ret text :: pages' =>
      match page_texts pages' with
      | Some texts => Some (default "" text :: texts)
      | None => None
      end
  | Raise _ :: _ => None
  end.

(** The text of a PDF file: the texts of its pages with newlines between
    them, and the empty text on any failure. *)
Definition pdf_text (ex : Extractors) (pdf_path : string) : string :=
  match PdfReader_pages ex pdf_path with
  | Ret pages =>
      match page_texts pages with
      | Some texts => Py.join newline texts
      | None => ""
      end
  | Raise _ => ""
  end.

(** The text of an HTML file: its visible text, and the empty text on any
    failure. *)
Definition html_text (ex : Extractors) (html_path : string) : string :=
  match soup_get_text ex html_path with
  | Ret text => text
  | Raise _ => ""
  end.

(** What one associated file adds to the full text of its document: the
    text of a PDF or HTML file and a newline, nothing for another file. *)
Definition file_text (ex : Extractors) (rel_path : string) : string :=
  if Py.endswith ".pdf" (Py.lower (library_path rel_path))
  then pdf_text ex (library_path rel_path) +:+ newline
  else if Py.endswith ".html" (Py.lower (library_path rel_path))
  then html_text ex (library_path rel_path) +:+ newline
  else "".

(** The concatenated text of the associated files, in their order. *)
Definition concatenated_text (ex : Extractors) (file_paths : list string) : string :=
  foldr (λ rel_path text, file_text ex rel_path +:+ text) "" file_paths.

(** ** The base name of the organised files *)

(** The first part of the base name: the cleaned last name of the first
    author, or nothing when the entry has no author field. *)
Definition first_author_part (entry : gmap string string) : outcome string :=
  match entry !! "author" with
  | Some author_text =>
      match first_author_name author_text with
      | Ret name => Ret (clean_filename name)
      | Raise e => Raise e
      end
  | None => Ret ""
  end.

(** The base name of the organised files of an entry. *)
Definition base_filename_of (first_author : string) (entry : gmap string string) : string :=
  first_author +:+ "_" +:+ default "unknown" (entry !! "year") +:+ "_"
  +:+ clean_filename (default "untitled" (entry !! "title")).

(** * Properties *)

(** ** Strings *)

Section strings.

Lemma app_cons_s (x : ascii) (a b : string) : String x a +:+ b = String x (a +:+ b).
Proof. reflexivity. Qed.

Lemma app_nil_l_s (a : string) : "" +:+ a = a.
Proof. reflexivity. Qed.

Lemma app_assoc_s (a b c : string) : (a +:+ b) +:+ c = a +:+ (b +:+ c).
Proof.
  induction a as [|x a IH]; [done |]. by rewrite !app_cons_s, IH.
Qed.

Lemma app_nil_r_s (a : string) : a +:+ "" = a.
Proof.
  induction a as [|x a IH]; [done |]. by rewrite app_cons_s, IH.
Qed.

Lemma startswith_app (p r : string) : Py.startswith p (p +:+ r) = true.
Proof.
  induction p as [|a p IH]; [done |].
  rewrite app_cons_s. simpl. by rewrite Ascii.eqb_refl, IH.
Qed.

Lemma startswith_inv (p s : string) :
  Py.startswith p s = true → ∃ r, s = p +:+ r.
Proof.
  revert s. induction p as [|a p IH]; intros s H.
  - by exists s.
  - destruct s as [|b s]; [done |]. simpl in H.
    apply andb_true_iff in H as [Hab Hps].
    apply Ascii.eqb_eq in Hab as ->.
    destruct (IH _ Hps) as [r ->]. by exists r.
Qed.

Lemma contains_spec (sub s : string) :
  Py.contains sub s = true ↔ ∃ pre post, s = pre +:+ sub +:+ post.
Proof.
  split.
  - induction s as [|c s IH]; simpl; intros H.
    + rewrite orb_false_r in H. apply startswith_inv in H as [r Hr].
      exists "", r. rewrite app_nil_l_s.
      destruct sub; [done | discriminate Hr].
    + apply orb_true_iff in H as [H|H].
      * apply startswith_inv in H as [r ->]. by exists "", r.
      * destruct (IH H) as (pre & post & ->). by exists (String c pre), post.
  - intros (pre & post & ->). induction pre as [|c pre IH].
    + rewrite app_nil_l_s.
      destruct (sub +:+ post) eqn:E; simpl; rewrite <- E, startswith_app; done.
    + rewrite app_cons_s. simpl. by rewrite IH, orb_true_r.
Qed.

Lemma lower_app (a b : string) : Py.lower (a +:+ b) = Py.lower a +:+ Py.lower b.
Proof.
  induction a as [|x a IH]; [done |]. rewrite app_cons_s. simpl.
  by rewrite IH.
Qed.

Lemma lower_app_inv (s a b : string) :
  Py.lower s = a +:+ b → ∃ x y, s = x +:+ y ∧ Py.lower x = a ∧ Py.lower y = b.
Proof.
  revert s. induction a as [|c a IH]; intros s H.
  - by exists "", s.
  - destruct s as [|d s]; [done |]. rewrite app_cons_s in H. simpl in H.
    injection H as Hc Hs. destruct (IH _ Hs) as (x & y & -> & <- & <-).
    exists (String d x), y. simpl. by rewrite Hc.
Qed.

Lemma lower_empty (s : string) : Py.lower s = "" → s = "".
Proof. by destruct s. Qed.

(** For a lower-case needle, the test of the source is a case-insensitive
    occurrence. *)
Lemma contains_lower_ci (kw text : string) :
  Py.lower kw = kw →
  Py.contains kw (Py.lower text) = true ↔ ci_occurs kw text.
Proof.
  intros Hkw. rewrite contains_spec. split.
  - intros (pre & post & H).
    apply lower_app_inv in H as (x & y & -> & _ & Hy).
    apply lower_app_inv in Hy as (m & z & -> & Hm & _).
    exists x, m, z. by rewrite Hkw.
  - intros (pre & mid & post & -> & Hmid).
    exists (Py.lower pre), (Py.lower post).
    by rewrite !lower_app, Hmid, Hkw.
Qed.

Lemma keywords_lower : Forall (λ kw, Py.lower kw = kw) KEYWORDS.
Proof. repeat constructor. Qed.

Lemma mentions_keyword_spec (text : string) :
  mentions_keyword (Py.lower text) = true ↔ text_mentions text.
Proof.
  unfold mentions_keyword, text_mentions. rewrite existsb_exists.
  pose proof keywords_lower as HL. rewrite Forall_forall in HL.
  split; intros (kw & Hin & H); exists kw.
  - apply list_elem_of_In in Hin. split; [done |].
    apply contains_lower_ci; [by apply HL | done].
  - split; [by apply list_elem_of_In |].
    apply contains_lower_ci; [by apply HL | done].
Qed.

Lemma no_keyword_in_empty : ¬ text_mentions "".
Proof.
  intros H. apply mentions_keyword_spec in H. vm_compute in H. done.
Qed.

End strings.

(** ** Text extraction never raises *)

Section extraction.

Context (ex : Extractors).

Lemma bind_ret_eq {A B} (m : M A) (f : A → M B) a t r t' :
  m = (Ret a, t) → f a = (r, t') → m ≫= f = (r, t ++ t').
Proof. intros -> Hf. unfold mbind, M_bind. by rewrite Hf. Qed.

Lemma extract_text_from_pdf_ret (pdf_path : string) :
  ∃ text evs,
    extract_text_from_pdf ex pdf_path = (Ret text, evs)
    ∧ ∀ e t, read_pdf ex pdf_path = (Raise e, t) →
             text = "" ∧ evs = t ++ [Print (pdf_warning pdf_path e)].
Proof.
  unfold extract_text_from_pdf, try_except.
  destruct (read_pdf ex pdf_path) as [[text|e] t].
  - exists text, t. split; [done | intros ? ? [=]].
  - exists "", (t ++ [Print (pdf_warning pdf_path e)]).
    split; [done |]. by intros ? ? [= <- <-].
Qed.

Lemma extract_text_from_html_ret (html_path : string) :
  ∃ text evs,
    extract_text_from_html ex html_path = (Ret text, evs)
    ∧ ∀ e t, read_html ex html_path = (Raise e, t) →
             text = "" ∧ evs = t ++ [Print (html_warning html_path e)].
Proof.
  unfold extract_text_from_html, try_except.
  destruct (read_html ex html_path) as [[text|e] t].
  - exists text, t. split; [done | intros ? ? [=]].
  - exists "", (t ++ [Print (html_warning html_path e)]).
    split; [done |]. by intros ? ? [= <- <-].
Qed.

Lemma extract_fulltext_loop_ret (file_paths : list string) (fulltext : string) :
  ∃ text evs, extract_fulltext_loop ex file_paths fulltext = (Ret text, evs).
Proof.
  revert fulltext. induction file_paths as [|rel_path rest IH]; intros fulltext.
  - by exists fulltext, [].
  - simpl. set (abs_path := Py.os_path_join _ _).
    destruct (Py.endswith ".pdf" (Py.lower abs_path)).
    { destruct (extract_text_from_pdf_ret abs_path) as (text & t & -> & _).
      destruct (IH (fulltext +:+ text +:+ newline)) as (text' & t' & H).
      exists text', ((t ++ []) ++ t').
      eapply bind_ret_eq; [|exact H]. by eapply bind_ret_eq. }
    destruct (Py.endswith ".html" (Py.lower abs_path)).
    { destruct (extract_text_from_html_ret abs_path) as (text & t & -> & _).
      destruct (IH (fulltext +:+ text +:+ newline)) as (text' & t' & H).
      exists text', ((t ++ []) ++ t').
      eapply bind_ret_eq; [|exact H]. by eapply bind_ret_eq. }
    destruct (IH fulltext) as (text' & t' & H).
    exists text', ([] ++ t'). by eapply bind_ret_eq.
Qed.

Lemma extract_fulltext_from_files_ret (file_paths : list string) :
  ∃ text evs, extract_fulltext_from_files ex file_paths = (Ret text, evs).
Proof. apply extract_fulltext_loop_ret. Qed.

Lemma mapM_cons {A B} (f : A → M B) (a : A) (l : list A) :
  mapM f (a :: l) = (b ← f a; bs ← mapM f l; mret (b :: bs)).
Proof. reflexivity. Qed.

(** The pages are read in order, up to the first one that raises. *)
Lemma mapM_page_text_spec (pages : list (outcome (option string))) :
  match page_texts pages with
  | Some texts => mapM page_text pages = (Ret texts, [])
  | None => ∃ e, mapM page_text pages = (Raise e, [])
  end.
Proof.
  induction pages as [|[text|e] pages IH]; [done | |].
  - rewrite mapM_cons. cbn [page_texts]. destruct (page_texts pages) as [texts|].
    + rewrite IH. reflexivity.
    + destruct IH as [e ->]. by exists e.
  - by exists e.
Qed.

Lemma extract_text_from_pdf_text (pdf_path : string) :
  ∃ evs, extract_text_from_pdf ex pdf_path = (Ret (pdf_text ex pdf_path), evs).
Proof.
  unfold extract_text_from_pdf, read_pdf, pdf_text.
  destruct (PdfReader_pages ex pdf_path) as [pages|e]; [|by eexists].
  pose proof (mapM_page_text_spec pages) as H.
  unfold try_except, emit, lift, mbind, M_bind. cbn [app].
  destruct (page_texts pages) as [texts|].
  - rewrite H. by eexists.
  - destruct H as [e ->]. by eexists.
Qed.

Lemma extract_text_from_html_text (html_path : string) :
  ∃ evs, extract_text_from_html ex html_path = (Ret (html_text ex html_path), evs).
Proof.
  unfold extract_text_from_html, read_html, html_text.
  destruct (soup_get_text ex html_path) as [text|e]; by eexists.
Qed.

(** The loop appends to the text built so far what each file adds. *)
Lemma extract_fulltext_loop_text (file_paths : list string) (fulltext : string) :
  ∃ evs, extract_fulltext_loop ex file_paths fulltext
         = (Ret (fulltext +:+ concatenated_text ex file_paths), evs).
Proof.
  revert fulltext. induction file_paths as [|rel_path rest IH]; intros fulltext.
  - exists []. cbn [concatenated_text foldr]. by rewrite app_nil_r_s.
  - cbn [extract_fulltext_loop concatenated_text foldr].
    fold (concatenated_text ex rest). fold (library_path rel_path).
    unfold file_text.
    destruct (Py.endswith ".pdf" (Py.lower (library_path rel_path))).
    { destruct (extract_text_from_pdf_text (library_path rel_path)) as [t Ht].
      destruct (IH (fulltext +:+ pdf_text ex (library_path rel_path) +:+ newline))
        as [t' H].
      exists ((t ++ []) ++ t'). rewrite <- (app_assoc_s fulltext).
      eapply bind_ret_eq; [|exact H]. by eapply bind_ret_eq. }
    destruct (Py.endswith ".html" (Py.lower (library_path rel_path))).
    { destruct (extract_text_from_html_text (library_path rel_path)) as [t Ht].
      destruct (IH (fulltext +:+ html_text ex (library_path rel_path) +:+ newline))
        as [t' H].
      exists ((t ++ []) ++ t'). rewrite <- (app_assoc_s fulltext).
      eapply bind_ret_eq; [|exact H]. by eapply bind_ret_eq. }
    destruct (IH fulltext) as [t' H].
    exists ([] ++ t'). rewrite app_nil_l_s. by eapply bind_ret_eq.
Qed.

Lemma extract_fulltext_from_files_text (file_paths : list string) :
  ∃ evs, extract_fulltext_from_files ex file_paths
         = (Ret (concatenated_text ex file_paths), evs).
Proof. apply (extract_fulltext_loop_text file_paths ""). Qed.

Lemma document_references_environment_ret (doc : DocumentRecord) :
  ∃ relevant evs, document_references_environment ex doc = (Ret relevant, evs).
Proof.
  unfold document_references_environment.
  destruct (metadata_match doc); [by exists true, [] |].
  destruct (doc_file_paths doc) as [|p ps]; [by exists false, [] |].
  destruct (extract_fulltext_from_files_ret (p :: ps)) as (text & t & H).
  exists (mentions_keyword (Py.lower text)), (t ++ []).
  by eapply bind_ret_eq.
Qed.

End extraction.

(** ** Counters *)

Section counters.

Lemma bounded_count_of (env total : gmap string nat) :
  bounded env total → ∀ tag, count_of env tag ≤ count_of total tag.
Proof.
  intros H tag. unfold count_of.
  destruct (env !! tag) as [n|] eqn:E; simpl; [|lia].
  destruct (H _ _ E) as (m & -> & ?). done.
Qed.

Lemma bounded_increment_total (tag : string) (env total : gmap string nat) :
  bounded env total → bounded env (increment tag total).
Proof.
  intros H tag' n E. unfold increment.
  destruct (H _ _ E) as (m & Hm & ?).
  destruct (decide (tag = tag')) as [->|Hne].
  - rewrite lookup_insert_eq, Hm. simpl. eexists. split; [done | lia].
  - rewrite lookup_insert_ne by done. eauto.
Qed.

Lemma bounded_increment_both (tag : string) (env total : gmap string nat) :
  bounded env total → bounded (increment tag env) (increment tag total).
Proof.
  intros H tag' n. unfold increment.
  destruct (decide (tag = tag')) as [->|Hne].
  - rewrite !lookup_insert_eq. intros [= <-]. eexists. split; [done |].
    destruct (env !! tag') as [k|] eqn:E; simpl; [|lia].
    destruct (H _ _ E) as (m & -> & ?). simpl. lia.
  - rewrite !lookup_insert_ne by done. apply H.
Qed.

Lemma bounded_count_tags_total (tags : list string) (env total : gmap string nat) :
  bounded env total → bounded env (count_tags tags total).
Proof.
  revert total. unfold count_tags.
  induction tags as [|tag tags IH]; intros total H; simpl; [done |].
  by apply IH, bounded_increment_total.
Qed.

Lemma bounded_count_tags_both (tags : list string) (env total : gmap string nat) :
  bounded env total → bounded (count_tags tags env) (count_tags tags total).
Proof.
  revert env total. unfold count_tags.
  induction tags as [|tag tags IH]; intros env total H; simpl; [done |].
  by apply IH, bounded_increment_both.
Qed.

Lemma group_stats_loop_bounded (ex : Extractors) (docs : list DocumentRecord)
    (env total : gmap string nat) :
  bounded env total →
  ∃ env' total' evs,
    group_stats_loop ex docs env total = (Ret (env', total'), evs)
    ∧ bounded env' total'.
Proof.
  revert env total. induction docs as [|doc rest IH]; intros env total H.
  - by exists env, total, [].
  - simpl.
    destruct (document_references_environment_ret ex doc) as (relevant & t & Hdoc).
    set (env1 := if relevant then count_tags (doc_tags doc) env else env).
    assert (bounded env1 (count_tags (doc_tags doc) total)) as H1.
    { subst env1. destruct relevant.
      - by apply bounded_count_tags_both.
      - by apply bounded_count_tags_total. }
    destruct (IH _ _ H1) as (env' & total' & t' & Hloop & Hb).
    exists env', total', (t ++ t'). split; [|done].
    by eapply bind_ret_eq.
Qed.

Lemma set_defaults_lookup (filter_set : gset string) (counts : gmap string nat) :
  defaults_set counts filter_set (set_defaults filter_set counts).
Proof.
  unfold set_defaults.
  apply (set_fold_ind_L (λ r X, defaults_set counts X r)); unfold defaults_set.
  - intros tag. destruct (counts !! tag); [done |].
    by rewrite decide_False by set_solver.
  - intros x X r Hx IH tag.
    destruct (decide (tag = x)) as [->|Hne].
    + pose proof (IH x) as Hr. rewrite (decide_False (P := x ∈ X)) in Hr by done.
      rewrite (decide_True (P := x ∈ {[x]} ∪ X)) by set_solver.
      destruct (counts !! x); rewrite Hr; [done |].
      by rewrite lookup_insert_eq.
    + assert ((match r !! x with
               | Some _ => r
               | None => <[x:=0]> r
               end) !! tag = r !! tag) as Hstep.
      { destruct (r !! x); [done |]. by rewrite lookup_insert_ne. }
      rewrite Hstep, IH. destruct (counts !! tag); [done |].
      destruct (decide (tag ∈ X)).
      * rewrite decide_True; [done |]. apply elem_of_union. by right.
      * rewrite decide_False; [done |].
        intros [Heq%elem_of_singleton|Hin]%elem_of_union; done.
Qed.

Lemma filter_tags_lookup (counts : gmap string nat) (filter_set : gset string)
    (tag : string) :
  set_defaults filter_set (filter (λ kv, kv.1 ∈ filter_set) counts) !! tag
  = if decide (tag ∈ filter_set) then Some (count_of counts tag) else None.
Proof.
  rewrite set_defaults_lookup. unfold count_of.
  destruct (filter _ counts !! tag) as [n|] eqn:E.
  - apply map_lookup_filter_Some in E as [E Hin]. simpl in Hin.
    by rewrite decide_True, E.
  - destruct (decide (tag ∈ filter_set)) as [Hin|]; [|done].
    destruct (counts !! tag) as [n|] eqn:Ec; [|done].
    assert (filter (λ kv, kv.1 ∈ filter_set) counts !! tag = Some n) as E'
      by by apply map_lookup_filter_Some.
    congruence.
Qed.

Lemma count_of_filter_tags (counts : gmap string nat) (filter_set : gset string)
    (tag : string) :
  count_of (set_defaults filter_set (filter (λ kv, kv.1 ∈ filter_set) counts)) tag
  = if decide (tag ∈ filter_set) then count_of counts tag else 0.
Proof.
  unfold count_of at 1. rewrite filter_tags_lookup.
  by destruct (decide (tag ∈ filter_set)).
Qed.

End counters.

(** ** The analysis script *)



Lemma metadata_match_spec (doc : DocumentRecord) :
  metadata_match doc = true ↔ metadata_mentions doc.
Proof.
  unfold metadata_match, metadata_mentions. rewrite existsb_exists. split.
  - intros (field & Hin & H). apply andb_true_iff in H as [_ H].
    apply mentions_keyword_spec in H as (kw & Hkw & Hocc).
    exists field, kw. by rewrite list_elem_of_In.
  - intros (field & kw & Hin & Hkw & Hocc). exists field.
    split; [by apply list_elem_of_In |].
    assert (text_mentions (default "" (doc_fields doc !! field))) as Hm
      by by exists kw.
    apply andb_true_iff. split; [|by apply mentions_keyword_spec].
    destruct (default "" (doc_fields doc !! field)); [|done].
    by apply no_keyword_in_empty in Hm.
Qed.

(** C2. The classifier returns, and its answer is [true] exactly when a
    keyword occurs, up to case, in one of the four metadata fields or, no
    metadata field matching, in the concatenated text of the associated
    files: the text of each PDF file (its pages joined by newlines) and of
    each HTML file, in the order of the files, each followed by a newline, a
    file that cannot be read counting as the empty text and a file of another
    kind adding nothing.  That text is what the full-text extraction returns.
    On a metadata match nothing at all is extracted (the event trace is
    empty); with no metadata match the events are those of the extraction;
    with no metadata match and no associated file the answer is [false]. *)
Theorem classification_by_keywords (ex : Extractors) (doc : DocumentRecord) :
  ∃ relevant evs evs',
    document_references_environment ex doc = (Ret relevant, evs)
    ∧ extract_fulltext_from_files ex (doc_file_paths doc)
      = (Ret (concatenated_text ex (doc_file_paths doc)), evs')
    ∧ (relevant = true ↔
         metadata_mentions doc
         ∨ (¬ metadata_mentions doc
            ∧ text_mentions (concatenated_text ex (doc_file_paths doc))))
    ∧ (metadata_mentions doc → relevant = true ∧ evs = [])
    ∧ (¬ metadata_mentions doc → evs = evs')
    ∧ (¬ metadata_mentions doc → doc_file_paths doc = [] → relevant = false).
Proof.
  destruct (extract_fulltext_from_files_text ex (doc_file_paths doc))
    as (evs' & Hft).
  pose proof (metadata_match_spec doc) as Hmeta.
  unfold document_references_environment.
  destruct (metadata_match doc) eqn:Em.
  - assert (metadata_mentions doc) as Hm by by apply Hmeta.
    exists true, [], evs'. split_and!; try done; tauto.
  - assert (¬ metadata_mentions doc) as Hm.
    { intros H. apply Hmeta in H. done. }
    destruct (doc_file_paths doc) as [|p ps] eqn:Ep.
    + injection Hft as <-.
      exists false, [], []. split_and!; try done.
      split; [done |].
      intros [H|[_ H]]; [done | by apply no_keyword_in_empty in H].
    + exists (mentions_keyword (Py.lower (concatenated_text ex (p :: ps)))),
        (evs' ++ []), evs'.
      split_and!; try done.
      * by eapply bind_ret_eq.
      * rewrite mentions_keyword_spec. tauto.
      * intros _. apply app_nil_r.
Qed.

(** No keyword in the metadata, one in capitals on the third page of the
    PDF file: relevant, after the PDF file and the HTML file have been
    opened; the text file is not read and the unreadable HTML file counts
    as empty. *)
Lemma classification_by_keywords_witness :
  ∃ evs,
    document_references_environment solar_pages budget_doc = (Ret true, evs)
    ∧ concatenated_text solar_pages (doc_file_paths budget_doc)
      = "Budget" +:+ newline +:+ newline +:+ "Solar ENERGY fund" +:+ newline
        +:+ newline.
Proof.
  destruct (classification_by_keywords solar_pages budget_doc)
    as (relevant & evs & evs' & Heq & _ & Hiff & _).
  exists evs. split; [|reflexivity].
  assert (relevant = true) as <-; [|exact Heq].
  apply Hiff. right. split.
  - intros H. apply metadata_match_spec in H. vm_compute in H. discriminate H.
  - exists "energy". split; [unfold KEYWORDS; set_solver |].
    exists ("Budget" +:+ newline +:+ newline +:+ "Solar "), "ENERGY",
      (" fund" +:+ newline +:+ newline).
    split; reflexivity.
Defined.

(** A title with a keyword in capitals: relevant, and no file is opened. *)
Example carbon_doc_example :
  document_references_environment one_page carbon_doc = (Ret true, []).
Proof. vm_compute. reflexivity. Qed.

(** The same document as in the witness above, with its events. *)
Example budget_doc_example :
  document_references_environment solar_pages budget_doc
  = (Ret true,
     [OpenPdf "AIPolicies_db/documents/reports/2020/Budget.pdf";
      OpenHtml "AIPolicies_db/documents/web_resources/2020/Budget.html";
      Print ("[WARN] Could not read HTML: "
             +:+ "AIPolicies_db/documents/web_resources/2020/Budget.html"
             +:+ " (no such file)")]).
Proof. vm_compute. reflexivity. Qed.

(** C6. The aggregation returns its two counters, and for every tag the
    relevant count is at most the total count.  After [filter_tags] the same
    bound holds, and each counter has exactly the tags of the filter as keys,
    a tag keeping its count from the data and getting zero when the data do
    not have it. *)
Theorem tag_counts_bounded (ex : Extractors) (docs : list DocumentRecord)
    (filter_set : gset string) :
  ∃ env total evs,
    group_stats_by_tag ex docs = (Ret (env, total), evs)
    ∧ (∀ tag, count_of env tag ≤ count_of total tag)
    ∧ (∀ tag, count_of (filter_tags env total filter_set).1 tag
              ≤ count_of (filter_tags env total filter_set).2 tag)
    ∧ (∀ tag, (filter_tags env total filter_set).1 !! tag
              = if decide (tag ∈ filter_set) then Some (count_of env tag) else None)
    ∧ (∀ tag, (filter_tags env total filter_set).2 !! tag
              = if decide (tag ∈ filter_set) then Some (count_of total tag) else None).
Proof.
  destruct (group_stats_loop_bounded ex docs ∅ ∅) as (env & total & t & H & Hb).
  { intros tag n. by rewrite lookup_empty. }
  exists env, total, t. split; [done |].
  pose proof (bounded_count_of _ _ Hb) as Hle.
  split; [done |]. unfold filter_tags. simpl.
  split; [|split]; intros tag; try apply filter_tags_lookup.
  rewrite !count_of_filter_tags.
  destruct (decide (tag ∈ filter_set)); [apply Hle | lia].
Qed.

(** ** File association *)

Section association.

Context (fs : FileSystem) (entry : gmap string string) (files_dir : Path).

Lemma find_pdf_method1 :
  os_path_exists fs files_dir = true →
  method1 fs entry files_dir ≠ Ret [] →
  find_pdf_in_files_folder fs entry files_dir = method1 fs entry files_dir.
Proof.
  intros Hex Hne. unfold find_pdf_in_files_folder. rewrite Hex. cbn [negb].
  by destruct (method1 fs entry files_dir) as [[|p l]|e].
Qed.






End association.

(** C4. When the folder of candidate files exists and the file field gives
    at least one file, the result is the list of those files: the search by
    identifier and title adds nothing. *)
Theorem file_field_takes_precedence (fs : FileSystem) (entry : gmap string string)
    (files_dir : Path) :
  os_path_exists fs files_dir = true →
  method1 fs entry files_dir ≠ Ret [] →
  find_pdf_in_files_folder fs entry files_dir = method1 fs entry files_dir.
Proof. apply find_pdf_method1. Qed.

Lemma file_field_takes_precedence_witness :
  find_pdf_in_files_folder net_zero_tree net_zero_entry files_root
  = Ret [["export"; "files"; "files"; "ABC"; "paper.pdf"]].
Proof.
  rewrite (file_field_takes_precedence net_zero_tree net_zero_entry files_root).
  - reflexivity.
  - reflexivity.
  - vm_compute. discriminate.
Defined.

(** ** Tag normalisation: the mixed-delimiter example *)

(** C3, as amended.  In each of the four tag fields, the value
    [policy, climate;energy] gives the tags [policy, climate] and [energy]:
    the semicolon comes first in the list of delimiters, so the value is
    split on it and the comma stays inside the first tag. *)
Theorem mixed_delimiters_split_on_semicolon :
  Forall (λ field,
            extract_tags_from_entry {[ field := "policy, climate;energy" ]}
            = ["energy"; "policy, climate"]) tag_fields.
Proof. repeat constructor. Qed.

(** C3, as stated, fails: the tags are not [policy] and [climate;energy]. *)
Lemma mixed_delimiters_not_split_on_comma :
  list_to_set (extract_tags_from_entry {[ "keywords" := "policy, climate;energy" ]})
  ≠ ({[ "policy"; "climate;energy" ]} : gset string).
Proof.
  intros H.
  assert ("policy" ∈ ({[ "policy"; "climate;energy" ]} : gset string)) as Hin
    by set_solver.
  rewrite <- H in Hin. vm_compute in Hin. set_solver.
Qed.

(** ** File organisation *)

(** C10. With no file to organise, the step returns the empty list and
    nothing happens: no directory is created, no file is copied.  In the
    driver, an entry for which no file is found leaves no event either, and
    its document has no file path. *)
Theorem nothing_to_organize (entry : gmap string string) (output_dir : Path) :
  organize_pdf_files [] entry output_dir = (Ret [], [])
  ∧ ∀ fs files_dir i st,
      find_pdf_in_files_folder fs entry files_dir = Ret [] →
      ∃ st', process_entry fs files_dir output_dir i entry st = (Ret st', [])
             ∧ ∃ doc, documents st' = documents st ++ [doc]
                      ∧ doc_file_paths doc = []
                      ∧ doc_has_pdf doc = false
                      ∧ pdf_count st' = pdf_count st.
Proof.
  split; [done |]. intros fs files_dir i st Hnone.
  unfold process_entry. rewrite Hnone.
  cbn [organize_pdf_files]. unfold lift, mbind, M_bind, mret, M_ret.
  eexists. split; [reflexivity |]. eexists. split_and!; reflexivity.
Qed.

Lemma nothing_to_organize_witness :
  ∃ st', process_entry snapshot_tree files_root ["out"] 0 snapshot_entry empty_library
         = (Ret st', [])
         ∧ ∃ doc, documents st' = [doc]
                  ∧ doc_file_paths doc = []
                  ∧ doc_has_pdf doc = false
                  ∧ pdf_count st' = 0.
Proof.
  destruct (nothing_to_organize snapshot_entry ["out"]) as [_ H].
  apply (H snapshot_tree files_root 0 empty_library).
  reflexivity.
Defined.

(** C5, at an entry with an empty author field and one associated file: the
    target directory is created, then taking the last word of the empty
    author name raises [IndexError]; no file is copied and the exception
    ends the whole run of the driver. *)
Theorem blank_author_raises :
  organize_pdf_files [["export"; "files"; "files"; "ABC"; "paper.pdf"]]
    blank_author_entry ["out"]
  = (Raise (IndexError "list index out of range"),
     [Mkdir ["out"; "documents"; "journal_articles"; "2021"]])
  ∧ process_bibtex_export net_zero_tree [blank_author_entry] ["export"] ["out"]
    = (Raise (IndexError "list index out of range"),
       [Mkdir ["out"]; Mkdir ["out"; "metadata"]; Mkdir ["out"; "documents"];
        Mkdir ["out"; "documents"; "journal_articles"; "2021"]]).
Proof. split; vm_compute; reflexivity. Qed.

(** The example of the specification, with an author: one file, named
    without index, and a document that has a PDF. *)
Example net_zero_example :
  (pdf_files ← lift (find_pdf_in_files_folder net_zero_tree net_zero_entry files_root);
   organize_pdf_files pdf_files net_zero_entry ["out"])
  = (Ret ["documents/journal_articles/2021/Smith_2021_Net_Zero_Pathways.pdf"],
     [Mkdir ["out"; "documents"; "journal_articles"; "2021"];
      Copy ["export"; "files"; "files"; "ABC"; "paper.pdf"]
           ["out"; "documents"; "journal_articles"; "2021";
            "Smith_2021_Net_Zero_Pathways.pdf"]]).
Proof. vm_compute. reflexivity. Qed.

(** The same example through the driver: the document records the path and
    has a PDF. *)
Example net_zero_document :
  ∃ st evs doc,
    process_bibtex_export net_zero_tree [net_zero_entry] ["export"] ["out"] = (Ret st, evs)
    ∧ documents st = [doc]
    ∧ doc_file_paths doc
      = ["documents/journal_articles/2021/Smith_2021_Net_Zero_Pathways.pdf"]
    ∧ doc_has_pdf doc = true
    ∧ doc_pdf_count doc = 1.
Proof.
  eexists _, _, _. split; [vm_compute; reflexivity |].
  split_and!; reflexivity.
Qed.

(** Two files, no author, no year: the names carry the indices 1 and 2, the
    year directory is [unknown] and the base name starts with an underscore. *)
Example two_files_example :
  (pdf_files ← lift (find_pdf_in_files_folder two_files_tree two_files_entry files_root);
   organize_pdf_files pdf_files two_files_entry ["out"])
  = (Ret ["documents/reports/unknown/_unknown_Clean_Air_Plan_1.pdf";
          "documents/reports/unknown/_unknown_Clean_Air_Plan_2.pdf"],
     [Mkdir ["out"; "documents"; "reports"; "unknown"];
      Copy ["export"; "files"; "docs"; "a.pdf"]
           ["out"; "documents"; "reports"; "unknown"; "_unknown_Clean_Air_Plan_1.pdf"];
      Copy ["export"; "files"; "docs"; "b.PDF"]
           ["out"; "documents"; "reports"; "unknown"; "_unknown_Clean_Air_Plan_2.pdf"]]).
Proof. vm_compute. reflexivity. Qed.

(** ** The library: identifiers *)

Section identifiers.

Lemma bind_inv {A B} (m : M A) (f : A → M B) (b : B) (evs : list event) :
  m ≫= f = (Ret b, evs) →
  ∃ a t t', m = (Ret a, t) ∧ f a = (Ret b, t') ∧ evs = t ++ t'.
Proof.
  unfold mbind, M_bind. destruct m as [[a|e] t]; [|done].
  destruct (f a) as [r t'] eqn:Ef. intros [= -> <-]. by exists a, t, t'.
Qed.

Lemma Ret_inj {A} (a b : A) : Ret a = Ret b → a = b.
Proof. by intros [=]. Qed.

Lemma str_of_nat_inj (i j : nat) : Py.str_of_nat i = Py.str_of_nat j → i = j.
Proof.
  unfold Py.str_of_nat. intros H.
  apply (f_equal NilEmpty.uint_of_string) in H.
  rewrite !NilEmpty.usu in H. injection H as H.
  by apply Unsigned.to_uint_inj.
Qed.

Lemma positional_id_inj (i j : nat) :
  "doc_" +:+ Py.str_of_nat i = "doc_" +:+ Py.str_of_nat j → i = j.
Proof. intros H. by apply str_of_nat_inj, (inj (String.app "doc_")). Qed.

Lemma add_extra_fields_id (entry doc : gmap string string) :
  add_extra_fields entry doc !! "id" = doc !! "id".
Proof.
  unfold add_extra_fields.
  apply (map_fold_weak_ind (λ r _, r !! "id" = doc !! "id")); [done |].
  intros key value m r _ IH.
  destruct (bool_decide (key ∉ known_fields) && Py.truthy value); [|done].
  rewrite lookup_insert_ne; [done |]. intros Heq. discriminate Heq.
Qed.

Lemma document_fields_id (i : nat) (entry : gmap string string)
    (title year category : string) :
  document_fields i entry title year category !! "id" = Some (entry_id i entry).
Proof.
  unfold document_fields. cbn [app].
  rewrite list_to_map_cons. apply lookup_insert_eq.
Qed.

Lemma process_entry_ids (fs : FileSystem) (files_dir output_path : Path) (i : nat)
    (entry : gmap string string) (st st' : library_state) (evs : list event) :
  process_entry fs files_dir output_path i entry st = (Ret st', evs) →
  document_ids st' = document_ids st ++ [Some (entry_id i entry)].
Proof.
  unfold process_entry. intros H.
  apply bind_inv in H as (pdf_files & t0 & t0' & _ & H & _).
  apply bind_inv in H as (organized & t & t' & _ & H & _).
  apply pair_equal_spec in H as [H _]. apply Ret_inj in H. subst st'.
  unfold document_ids. cbn [documents].
  rewrite fmap_app. cbn [fmap list_fmap doc_fields].
  by rewrite add_extra_fields_id, document_fields_id.
Qed.

Lemma process_entries_ids (fs : FileSystem) (files_dir output_path : Path)
    (entries : list (gmap string string)) :
  ∀ i st st' evs,
    process_entries fs files_dir output_path i entries st = (Ret st', evs) →
    document_ids st'
    = document_ids st ++ imap (λ k entry, Some (entry_id (i + k) entry)) entries.
Proof.
  induction entries as [|entry rest IH]; intros i st st' evs H.
  - injection H as <- _. by rewrite app_nil_r.
  - simpl in H. apply bind_inv in H as (st1 & t & t' & H1 & H2 & _).
    apply process_entry_ids in H1. apply IH in H2.
    rewrite H2, H1, <- app_assoc. f_equal. simpl.
    rewrite Nat.add_0_r. f_equal.
    apply imap_ext. intros k e _. simpl. f_equal. f_equal. lia.
Qed.

Lemma process_bibtex_export_ids (fs : FileSystem)
    (entries : list (gmap string string)) (export_path output_path : Path)
    (st : library_state) (evs : list event) :
  process_bibtex_export fs entries export_path output_path = (Ret st, evs) →
  document_ids st = imap (λ k entry, Some (entry_id k entry)) entries.
Proof.
  unfold process_bibtex_export. intros H.
  apply bind_inv in H as (? & ? & ? & _ & H & _).
  apply bind_inv in H as (? & ? & ? & _ & H & _).
  apply bind_inv in H as (? & ? & ? & _ & H & _).
  by apply process_entries_ids in H.
Qed.

End identifiers.

(** C7, as amended.  In a library that was built, the document at position
    [i] carries the citation key of its entry, or [doc_i] when the entry has
    none; two entries without key never get the same identifier; and the
    identifiers of the library are pairwise distinct when no two entries
    share a citation key and no citation key is the positional identifier of
    an entry without key. *)
Theorem identifiers_of_library (fs : FileSystem)
    (entries : list (gmap string string)) (export_path output_path : Path)
    (st : library_state) (evs : list event) :
  process_bibtex_export fs entries export_path output_path = (Ret st, evs) →
  length (documents st) = length entries
  ∧ (∀ i entry, entries !! i = Some entry →
       document_ids st !! i
       = Some (Some (default ("doc_" +:+ Py.str_of_nat i) (entry !! "ID"))))
  ∧ (∀ i j ei ej,
       entries !! i = Some ei → entries !! j = Some ej →
       ei !! "ID" = None → ej !! "ID" = None →
       document_ids st !! i = document_ids st !! j → i = j)
  ∧ (keys_distinct entries → no_positional_key entries → NoDup (document_ids st)).
Proof.
  intros Hrun. apply process_bibtex_export_ids in Hrun as Hids.
  assert (∀ i entry, entries !! i = Some entry →
            document_ids st !! i = Some (Some (entry_id i entry))) as Hat.
  { intros i entry Hi. by rewrite Hids, list_lookup_imap, Hi. }
  split_and!.
  - apply (f_equal length) in Hids. unfold document_ids in Hids.
    by rewrite length_fmap, length_imap in Hids.
  - exact Hat.
  - intros i j ei ej Hi Hj Hni Hnj Heq.
    rewrite (Hat _ _ Hi), (Hat _ _ Hj) in Heq. unfold entry_id in Heq.
    rewrite Hni, Hnj in Heq. simpl in Heq.
    assert ("doc_" +:+ Py.str_of_nat i = "doc_" +:+ Py.str_of_nat j) as Hsame
      by congruence.
    by apply positional_id_inj.
  - intros Hkeys Hpos. apply NoDup_alt. intros i j x Hi Hj.
    rewrite Hids, list_lookup_imap in Hi, Hj.
    destruct (entries !! i) as [ei|] eqn:Ei; [|done].
    destruct (entries !! j) as [ej|] eqn:Ej; [|done].
    simpl in Hi, Hj. injection Hi as <-. injection Hj as Hj.
    unfold entry_id in Hj.
    destruct (ei !! "ID") as [a|] eqn:Ea, (ej !! "ID") as [b|] eqn:Eb;
      simpl in Hj.
    + assert (a = b) as -> by congruence.
      exact (Hkeys i j ei ej b Ei Ej Ea Eb).
    + exfalso. apply (Hpos i j ei ej Ei Ej Eb). congruence.
    + exfalso. apply (Hpos j i ej ei Ej Ei Ea). congruence.
    + symmetry. by apply positional_id_inj.
Qed.

(** ** Splitting and stripping *)

Section split_strip.

Implicit Types (d a : ascii) (s p t : string).

Lemma substr_refl s : substr s s.
Proof. exists "", "". by rewrite app_nil_l_s, app_nil_r_s. Qed.

Lemma substr_empty s : substr "" s.
Proof. by exists "", s. Qed.

Lemma substr_trans p t s : substr p t → substr t s → substr p s.
Proof.
  intros (a1 & b1 & ->) (a2 & b2 & ->).
  exists (a2 +:+ a1), (b1 +:+ b2). by rewrite !app_assoc_s.
Qed.

Lemma substr_cons a p s : substr p s → substr p (String a s).
Proof. intros (pre & post & ->). by exists (String a pre), post. Qed.

Lemma substr_contains p s t :
  substr p s → Py.contains t p = true → Py.contains t s = true.
Proof.
  intros Hsub H. apply contains_spec in H as (a & b & ->).
  apply contains_spec. destruct Hsub as (pre & post & ->).
  exists (pre +:+ a), (b +:+ post). by rewrite !app_assoc_s.
Qed.

Lemma contains_char_cons d a s :
  Py.contains (String d "") (String a s)
  = Ascii.eqb d a || Py.contains (String d "") s.
Proof.
  simpl. destruct s; simpl; by rewrite andb_true_r.
Qed.

Lemma contains_char_empty d : Py.contains (String d "") "" = false.
Proof. reflexivity. Qed.

Lemma split_char_empty d : Py.split (String d "") "" = [""].
Proof. reflexivity. Qed.

Lemma split_char_cons d a s :
  Py.split (String d "") (String a s)
  = if Ascii.eqb d a then "" :: Py.split (String d "") s
    else Py.cons_head a (Py.split (String d "") s).
Proof.
  unfold Py.split. simpl. rewrite andb_true_r. by destruct (Ascii.eqb d a).
Qed.

(** Without the separator, the text is the only piece. *)
Lemma split_char_absent d s :
  Py.contains (String d "") s = false → Py.split (String d "") s = [s].
Proof.
  induction s as [|a s IH]; [done |].
  rewrite contains_char_cons, split_char_cons.
  intros [Ha Hs]%orb_false_iff. rewrite Ha, (IH Hs). done.
Qed.

(** A first piece without the separator, then the separator. *)
Lemma split_char_app d p s :
  Py.contains (String d "") p = false →
  Py.split (String d "") (p +:+ String d s) = p :: Py.split (String d "") s.
Proof.
  induction p as [|a p IH]; intros H.
  - rewrite app_nil_l_s, split_char_cons. by rewrite Ascii.eqb_refl.
  - rewrite contains_char_cons in H. apply orb_false_iff in H as [Ha Hp].
    rewrite app_cons_s, split_char_cons, Ha, (IH Hp). done.
Qed.

(** The first piece is a prefix of the text, the others are substrings. *)
Lemma split_char_pieces d s :
  ∃ w ws, Py.split (String d "") s = w :: ws
          ∧ (∃ post, s = w +:+ post)
          ∧ ∀ p, p ∈ ws → substr p s.
Proof.
  induction s as [|a s (w & ws & IH & (post & Hw) & Hws)].
  - exists "", []. split; [done |]. split; [by exists "" |].
    intros p Hp. by apply not_elem_of_nil in Hp.
  - rewrite split_char_cons, IH. destruct (Ascii.eqb d a).
    + exists "", (w :: ws). split; [done |]. split; [by exists (String a s) |].
      intros p [->|Hp]%elem_of_cons; apply substr_cons.
      * exists "", post. by rewrite app_nil_l_s.
      * by apply Hws.
    + exists (String a w), ws. split; [done |].
      split; [exists post; by rewrite app_cons_s, <- Hw |].
      intros p Hp. by apply substr_cons, Hws.
Qed.

Lemma split_char_substr d s p : p ∈ Py.split (String d "") s → substr p s.
Proof.
  destruct (split_char_pieces d s) as (w & ws & -> & (post & Hw) & Hws).
  intros [->|Hp]%elem_of_cons; [|by apply Hws].
  exists "", post. by rewrite app_nil_l_s.
Qed.

(** No piece holds the separator. *)
Lemma split_char_no_sep d s p :
  p ∈ Py.split (String d "") s → Py.contains (String d "") p = false.
Proof.
  revert p. induction s as [|a s IH]; intros p.
  - rewrite split_char_empty. by intros ->%list_elem_of_singleton.
  - rewrite split_char_cons. destruct (Ascii.eqb d a) eqn:Ea.
    + intros [->|Hp]%elem_of_cons; [done | by apply IH].
    + destruct (split_char_pieces d s) as (w & ws & Hsplit & _).
      rewrite Hsplit in *. simpl.
      intros [->|Hp]%elem_of_cons.
      * rewrite contains_char_cons, Ea. apply IH. by left.
      * apply IH. by right.
Qed.

Lemma lstrip_suffix s : ∃ pre, s = pre +:+ Py.lstrip s.
Proof.
  induction s as [|a s [pre IH]]; [by exists "" |].
  simpl. destruct (Py.isspace a).
  - exists (String a pre). by rewrite app_cons_s, <- IH.
  - by exists "".
Qed.

Lemma rstrip_prefix s : ∃ post, s = Py.rstrip s +:+ post.
Proof.
  induction s as [|a s [post IH]]; [by exists "" |].
  simpl. destruct (Py.rstrip s) as [|b r] eqn:Er.
  - destruct (Py.isspace a); [by exists (String a s) | by exists s].
  - exists post. by rewrite app_cons_s, <- IH.
Qed.

Lemma strip_substr s : substr (Py.strip s) s.
Proof.
  unfold Py.strip. destruct (lstrip_suffix s) as [pre Hpre].
  destruct (rstrip_prefix (Py.lstrip s)) as [post Hpost].
  exists pre, post. by rewrite <- Hpost.
Qed.

Lemma rstrip_idemp s : Py.rstrip (Py.rstrip s) = Py.rstrip s.
Proof.
  induction s as [|a s IH]; [done |].
  simpl. destruct (Py.rstrip s) as [|b r] eqn:Er.
  - destruct (Py.isspace a) eqn:Ea; [done |]. simpl. by rewrite Ea.
  - simpl in *. by rewrite IH.
Qed.

Lemma lstrip_head s :
  Py.lstrip s = "" ∨ ∃ a r, Py.lstrip s = String a r ∧ Py.isspace a = false.
Proof.
  induction s as [|a s IH]; [by left |].
  simpl. destruct (Py.isspace a) eqn:Ea; [done |]. right. by exists a, s.
Qed.

Lemma rstrip_head a s :
  Py.isspace a = false → ∃ r, Py.rstrip (String a s) = String a r.
Proof.
  intros Ha. simpl. destruct (Py.rstrip s) as [|b r].
  - rewrite Ha. by exists "".
  - by exists (String b r).
Qed.

Lemma strip_idemp s : Py.strip (Py.strip s) = Py.strip s.
Proof.
  unfold Py.strip.
  assert (Py.lstrip (Py.rstrip (Py.lstrip s)) = Py.rstrip (Py.lstrip s)) as ->.
  { destruct (lstrip_head s) as [->|(a & r & -> & Ha)]; [done |].
    destruct (rstrip_head a r Ha) as [r' ->]. simpl. by rewrite Ha. }
  apply rstrip_idemp.
Qed.

End split_strip.

(** ** Tags of an entry are normal *)

Section tags.

Implicit Types (t p text : string) (ts : list string) (tags : gset string).

Lemma normal_of_substr text p :
  Py.contains ";" text = false → substr p text →
  Py.truthy (Py.strip p) = true → normal_tag (Py.strip p).
Proof.
  intros Hno Hsub Htruthy. split; [done |]. split; [apply strip_idemp |].
  destruct (Py.contains ";" (Py.strip p)) eqn:E; [|done].
  rewrite <- Hno. symmetry.
  eapply substr_contains; [|exact E].
  eapply substr_trans; [apply strip_substr | done].
Qed.

Lemma normal_of_piece text p :
  p ∈ Py.split ";" text →
  Py.truthy (Py.strip p) = true → normal_tag (Py.strip p).
Proof.
  intros Hp. apply (normal_of_substr p); [|apply substr_refl].
  by apply split_char_no_sep in Hp.
Qed.

Lemma split_tags_elem d text tags t :
  t ∈ tags ∪ list_to_set (filter (λ tag, Py.truthy tag = true)
                              (Py.strip <$> Py.split (String d "") text)) →
  t ∈ tags ∨ ∃ p, p ∈ Py.split (String d "") text
                  ∧ t = Py.strip p ∧ Py.truthy (Py.strip p) = true.
Proof.
  intros [H|H]%elem_of_union; [by left |]. right.
  apply elem_of_list_to_set, list_elem_of_filter in H as [Htruthy H].
  apply list_elem_of_fmap in H as (p & -> & Hp). by exists p.
Qed.

Lemma split_on_delimiters_normal text tags t :
  t ∈ split_on_delimiters delimiters text tags → t ∈ tags ∨ normal_tag t.
Proof.
  unfold delimiters, newline. simpl.
  destruct (Py.contains ";" text) eqn:E1.
  { intros [H|(p & Hp & -> & Ht)]%split_tags_elem; [by left | right].
    by eapply normal_of_piece. }
  assert (∀ d p, p ∈ Py.split (String d "") text →
            Py.truthy (Py.strip p) = true → normal_tag (Py.strip p)) as Hpiece.
  { intros d p Hp. apply (normal_of_substr text); [done |].
    by eapply split_char_substr. }
  destruct (Py.contains "," text).
  { intros [H|(p & Hp & -> & Ht)]%split_tags_elem; [by left | right].
    by eapply Hpiece. }
  destruct (Py.contains (String (ascii_of_nat 10) "") text).
  { intros [H|(p & Hp & -> & Ht)]%split_tags_elem; [by left | right].
    by eapply Hpiece. }
  destruct (Py.contains "|" text).
  { intros [H|(p & Hp & -> & Ht)]%split_tags_elem; [by left | right].
    by eapply Hpiece. }
  destruct (Py.truthy (Py.strip text)) eqn:Et; [|by left].
  intros [H | ->%elem_of_singleton]%elem_of_union; [by left | right].
  apply (normal_of_substr text); [done | apply substr_refl | done].
Qed.

Lemma tags_of_fields_normal fields (entry : gmap string string) tags t :
  t ∈ tags_of_fields fields entry tags → t ∈ tags ∨ normal_tag t.
Proof.
  revert tags. unfold tags_of_fields.
  induction fields as [|field fields IH]; intros tags; simpl; [by left |].
  intros [H|H]%IH; [|by right].
  destruct (entry !! field) as [text|]; [|by left].
  by apply split_on_delimiters_normal in H.
Qed.

Lemma sorted_elements_perm tags : Py.sorted (elements tags) ≡ₚ elements tags.
Proof. apply merge_sort_Permutation. Qed.

Lemma extract_tags_normal (entry : gmap string string) :
  Forall normal_tag (extract_tags_from_entry entry).
Proof.
  apply Forall_forall. intros t Ht. unfold extract_tags_from_entry in Ht.
  rewrite sorted_elements_perm in Ht. apply elem_of_elements in Ht.
  apply tags_of_fields_normal in Ht as [Ht|Ht]; [|done].
  by apply not_elem_of_empty in Ht.
Qed.

Lemma extract_tags_sorted (entry : gmap string string) :
  Sorted String.le (extract_tags_from_entry entry).
Proof. apply (Sorted_merge_sort String.le). Qed.

Lemma extract_tags_NoDup (entry : gmap string string) :
  NoDup (extract_tags_from_entry entry).
Proof.
  unfold extract_tags_from_entry. rewrite sorted_elements_perm.
  apply NoDup_elements.
Qed.

(** Sorting the set of a sorted list without duplicates gives the list. *)
Lemma sorted_set_of_sorted ts :
  Sorted String.le ts → NoDup ts →
  Py.sorted (elements (list_to_set ts : gset string)) = ts.
Proof.
  intros Hsorted Hnodup. apply (Sorted_unique String.le).
  - apply (Sorted_merge_sort String.le).
  - done.
  - rewrite sorted_elements_perm. by apply elements_list_to_set.
Qed.

Lemma strip_normal ts : Forall normal_tag ts → Py.strip <$> ts = ts.
Proof.
  induction 1 as [|t ts (_ & Hs & _) _ IH]; [done |].
  by rewrite fmap_cons, Hs, IH.
Qed.

Lemma filter_normal ts :
  Forall normal_tag ts → filter (λ tag, Py.truthy tag = true) ts = ts.
Proof.
  induction 1 as [|t ts (Ht & _) _ IH]; [done |].
  rewrite filter_cons, decide_True by done. by rewrite IH.
Qed.

Lemma split_join_normal ts :
  ts ≠ [] → Forall normal_tag ts → Py.split ";" (Py.join ";" ts) = ts.
Proof.
  intros Hne Hall. induction Hall as [|t ts (_ & _ & Hno) Hall IH]; [done |].
  destruct ts as [|t' ts'].
  - simpl. by apply split_char_absent.
  - change (Py.join ";" (t :: t' :: ts'))
      with (t +:+ String ";" (Py.join ";" (t' :: ts'))).
    rewrite split_char_app by done. by rewrite IH.
Qed.

Lemma join_two_contains t t' ts :
  Py.contains ";" (Py.join ";" (t :: t' :: ts)) = true.
Proof.
  apply contains_spec. exists t, (Py.join ";" (t' :: ts)). reflexivity.
Qed.

(** The tags of an entry that has one tag field only. *)
Lemma tags_of_single_field field text :
  field ∈ tag_fields →
  extract_tags_from_entry {[ field := text ]}
  = Py.sorted (elements (split_on_delimiters delimiters text ∅)).
Proof.
  intros Hin. unfold extract_tags_from_entry, tags_of_fields, tag_fields in *.
  f_equal. f_equal. simpl.
  repeat (apply elem_of_cons in Hin as [->|Hin]);
    [..|by apply not_elem_of_nil in Hin];
    repeat (rewrite lookup_singleton_eq || rewrite lookup_singleton_ne by done);
    done.
Qed.

End tags.

(** ** Tag normalisation: normalising again *)

Section renormalising.

Lemma split_on_delimiters_none (text : string) (tags : gset string) :
  (∀ d, d ∈ delimiters → Py.contains d text = false) →
  split_on_delimiters delimiters text tags
  = if Py.truthy (Py.strip text) then tags ∪ {[ Py.strip text ]} else tags.
Proof.
  intros H. unfold delimiters in *. cbn [split_on_delimiters].
  rewrite (H ";"), (H ","), (H newline), (H "|"); [done | | | |];
    repeat first [by left | right].
Qed.

Lemma split_on_delimiters_semicolon (text : string) (tags : gset string) :
  Py.contains ";" text = true →
  split_on_delimiters delimiters text tags
  = tags ∪ list_to_set (filter (λ tag, Py.truthy tag = true)
                               (Py.strip <$> Py.split ";" text)).
Proof. intros H. unfold delimiters. cbn [split_on_delimiters]. by rewrite H. Qed.

End renormalising.

(** C8, as amended.  Take the tags of an entry, join them with semicolons
    and present the result as the value of one of the tag fields: the tags of
    that entry are the same list, provided that, when there is exactly one
    tag, it holds none of the delimiters. *)
Theorem renormalizing_joined_tags (entry : gmap string string) (field : string) :
  field ∈ tag_fields →
  (∀ t, extract_tags_from_entry entry = [t] →
        ∀ d, d ∈ delimiters → Py.contains d t = false) →
  extract_tags_from_entry {[ field := Py.join ";" (extract_tags_from_entry entry) ]}
  = extract_tags_from_entry entry.
Proof.
  intros Hfield Hsingle. rewrite tags_of_single_field by done.
  pose proof (extract_tags_normal entry) as Hnormal.
  pose proof (extract_tags_sorted entry) as Hsorted.
  pose proof (extract_tags_NoDup entry) as Hnodup.
  destruct (extract_tags_from_entry entry) as [|t [|t' ts]].
  - vm_compute. reflexivity.
  - change (Py.join ";" [t]) with t.
    rewrite split_on_delimiters_none by by apply Hsingle.
    apply Forall_cons in Hnormal as [(Ht & Hs & _) _].
    rewrite Hs, Ht, (left_id_L ∅ (∪)), elements_singleton. reflexivity.
  - rewrite split_on_delimiters_semicolon by apply join_two_contains.
    rewrite split_join_normal by done.
    rewrite strip_normal, filter_normal by done.
    rewrite (left_id_L ∅ (∪)). by apply sorted_set_of_sorted.
Qed.

Lemma renormalizing_joined_tags_witness :
  extract_tags_from_entry
    {[ "keywords" := Py.join ";" (extract_tags_from_entry one_tag_entry) ]}
  = extract_tags_from_entry one_tag_entry.
Proof.
  apply renormalizing_joined_tags.
  - by left.
  - intros t Ht d Hd. vm_compute in Ht. injection Ht as <-.
    unfold delimiters in Hd.
    repeat (apply elem_of_cons in Hd as [->|Hd]); try reflexivity.
    by apply not_elem_of_nil in Hd.
Defined.

(** C8, as stated, fails: the only tag of the entry holds a comma, and
    presented again as a tag field it is split in two.  (Joining a single
    tag, with whatever separator, gives the tag itself.) *)
Lemma renormalizing_splits_single_tag :
  extract_tags_from_entry trailing_semicolon_entry = ["energy, climate"]
  ∧ Py.join ";" ["energy, climate"] = "energy, climate"
  ∧ extract_tags_from_entry {[ "keywords" := "energy, climate" ]}
    = ["climate"; "energy"].
Proof. split_and!; vm_compute; reflexivity. Qed.

(** ** File association: the tuples of the file field *)

Section tuples.


Lemma endswith_pdf_truthy (s : string) :
  Py.endswith ".pdf" s = true → Py.truthy s = true.
Proof. by destruct s. Qed.




End tuples.




(** ** The library: examples for the identifiers *)

Lemma mixed_entries_keys_distinct : keys_distinct mixed_entries.
Proof.
  intros i j ei ej key Hi Hj Hei Hej.
  destruct i as [|[|[|i]]], j as [|[|[|j]]]; try done;
    simpl in Hi, Hj; simplify_eq; vm_compute in Hei, Hej; done.
Qed.

Lemma mixed_entries_no_positional_key : no_positional_key mixed_entries.
Proof.
  intros i j ei ej Hi Hj Hej Hei.
  destruct i as [|[|[|i]]], j as [|[|[|j]]]; try done;
    simpl in Hi, Hj; simplify_eq; vm_compute in Hei, Hej; done.
Qed.

Lemma identifiers_of_library_witness :
  ∃ st evs,
    process_bibtex_export snapshot_tree mixed_entries ["export"] ["out"] = (Ret st, evs)
    ∧ document_ids st !! 0 = Some (Some "doc_0")
    ∧ NoDup (document_ids st).
Proof.
  assert (∃ st evs,
            process_bibtex_export snapshot_tree mixed_entries ["export"] ["out"]
            = (Ret st, evs)) as (st & evs & Hrun).
  { vm_compute. eauto. }
  exists st, evs. split; [exact Hrun |].
  destruct (identifiers_of_library _ _ _ _ _ _ Hrun) as (_ & Hat & _ & Hnodup).
  split.
  - apply (Hat 0 _ eq_refl).
  - apply Hnodup.
    + apply mixed_entries_keys_distinct.
    + apply mixed_entries_no_positional_key.
Defined.

(** C7, as stated, fails: two entries under one citation key give two
    documents with the same identifier. *)
Lemma shared_key_shared_identifier :
  ∃ st evs,
    process_bibtex_export snapshot_tree same_key_entries ["export"] ["out"] = (Ret st, evs)
    ∧ document_ids st = [Some "smith2020"; Some "smith2020"]
    ∧ ¬ NoDup (document_ids st).
Proof.
  eexists _, _. split; [vm_compute; reflexivity |].
  split; [vm_compute; reflexivity |].
  vm_compute. intros H. apply NoDup_cons in H as [H _]. apply H. by left.
Qed.

(** * Further properties of the converter *)

(** ** Categories *)

Section categories.

Lemma lower_char_idemp (c : ascii) : Py.lower_char (Py.lower_char c) = Py.lower_char c.
Proof. destruct c as [[] [] [] [] [] [] [] []]; reflexivity. Qed.

Lemma lower_idemp (s : string) : Py.lower (Py.lower s) = Py.lower s.
Proof.
  induction s as [|c s IH]; [done |]. simpl. by rewrite lower_char_idemp, IH.
Qed.

Lemma categories_table_range (entry_type category : string) :
  categories_table !! entry_type = Some category → category ∈ category_names.
Proof.
  intros H. apply elem_of_list_to_map_2 in H.
  repeat (apply elem_of_cons in H as [[= -> ->]|H]; [set_solver |]).
  by apply not_elem_of_nil in H.
Qed.

End categories.

(** The category of an entry is one of the thirteen buckets; an entry
    without type is [uncategorized]; and the type is read without regard to
    case: an entry type and its lower-case form give the same category. *)
Theorem categorize_entry_buckets (entry : gmap string string) (entry_type : string) :
  categorize_entry entry ∈ category_names
  ∧ categorize_entry (delete "ENTRYTYPE" entry) = "uncategorized"
  ∧ categorize_entry (<["ENTRYTYPE" := Py.lower entry_type]> entry)
    = categorize_entry (<["ENTRYTYPE" := entry_type]> entry).
Proof.
  split_and!.
  - unfold categorize_entry.
    destruct (categories_table !! _) as [category|] eqn:E; simpl.
    + by eapply categories_table_range.
    + set_solver.
  - unfold categorize_entry. by rewrite lookup_delete_eq.
  - unfold categorize_entry. rewrite !lookup_insert_eq.
    cbn [from_option id]. by rewrite lower_idemp.
Qed.

(** ** File names *)

Section filenames.

Implicit Types (c : ascii) (s : string).

Lemma safe_char_classes c :
  safe_char c = true →
  problematic c = false ∧ Py.isspace c = false ∧ special c = false
  ∧ Ascii.eqb "/" c = false.
Proof.
  destruct c as [[] [] [] [] [] [] [] []]; vm_compute; try done; by intros.
Qed.

Lemma underscore_no_space : Py.isspace "_" = false.
Proof. reflexivity. Qed.

Lemma all_chars_impl (P Q : ascii → bool) s :
  (∀ c, P c = true → Q c = true) → all_chars P s = true → all_chars Q s = true.
Proof.
  intros HPQ. induction s as [|c s IH]; [done |]. simpl.
  intros [Hc Hs]%andb_true_iff. by rewrite (HPQ _ Hc), IH.
Qed.

Lemma delete_chars_id (cls : ascii → bool) s :
  all_chars (λ c, negb (cls c)) s = true → Py.delete_chars cls s = s.
Proof.
  induction s as [|c s IH]; [done |]. simpl.
  intros [Hc Hs]%andb_true_iff. apply negb_true_iff in Hc.
  by rewrite Hc, IH.
Qed.

Lemma delete_chars_all_chars (P cls : ascii → bool) s :
  all_chars P s = true → all_chars P (Py.delete_chars cls s) = true.
Proof.
  induction s as [|c s IH]; [done |]. simpl.
  intros [Hc Hs]%andb_true_iff. destruct (cls c); [by apply IH |].
  simpl. by rewrite Hc, IH.
Qed.

Lemma sub_space_runs_id (r : ascii) s :
  all_chars (λ c, negb (Py.isspace c)) s = true → Py.sub_space_runs r s = s.
Proof.
  induction s as [|c s IH]; [done |]. simpl.
  intros [Hc Hs]%andb_true_iff. apply negb_true_iff in Hc.
  by rewrite Hc, IH.
Qed.

Lemma sub_space_runs_no_space s :
  all_chars (λ c, negb (Py.isspace c)) (Py.sub_space_runs "_" s) = true.
Proof.
  induction s as [|c s IH]; [done |].
  cbn [Py.sub_space_runs]. destruct (Py.isspace c) eqn:Ec.
  - destruct s as [|c' s']; [done |].
    destruct (Py.isspace c'); [done |].
    cbn [all_chars]. by rewrite IH.
  - cbn [all_chars]. by rewrite Ec, IH.
Qed.

Lemma delete_special_safe s :
  all_chars (λ c, negb (Py.isspace c)) s = true →
  all_chars safe_char (Py.delete_chars special s) = true.
Proof.
  induction s as [|c s IH]; [done |]. simpl.
  intros [Hc Hs]%andb_true_iff. apply negb_true_iff in Hc.
  destruct (special c) eqn:E; [by apply IH |].
  simpl. rewrite (IH Hs), andb_true_r.
  unfold special in E. rewrite Hc, orb_false_r in E.
  by apply negb_false_iff in E.
Qed.

Lemma take_all_chars (P : ascii → bool) (n : nat) s :
  all_chars P s = true → all_chars P (Py.take n s) = true.
Proof.
  revert s. induction n as [|n IH]; intros [|c s]; try done. simpl.
  intros [Hc Hs]%andb_true_iff. by rewrite Hc, IH.
Qed.

Lemma take_length (n : nat) s : String.length (Py.take n s) ≤ n.
Proof.
  revert s. induction n as [|n IH]; intros [|c s]; simpl; try lia.
  specialize (IH s). lia.
Qed.

Lemma take_id (n : nat) s : String.length s ≤ n → Py.take n s = s.
Proof.
  revert s. induction n as [|n IH]; intros [|c s]; simpl; try done; try lia.
  intros H. rewrite IH; [done | lia].
Qed.

Lemma clean_filename_truthy (text : string) :
  Py.truthy text = true →
  clean_filename text
  = Py.take 80 (Py.delete_chars special
                  (Py.sub_space_runs "_" (Py.delete_chars problematic text))).
Proof. intros H. unfold clean_filename. by rewrite H. Qed.

Lemma clean_filename_falsy (text : string) :
  Py.truthy text = false → clean_filename text = "untitled".
Proof. intros H. unfold clean_filename. by rewrite H. Qed.

Lemma clean_filename_all_safe (text : string) :
  all_chars safe_char (clean_filename text) = true.
Proof.
  destruct (Py.truthy text) eqn:E.
  - rewrite clean_filename_truthy by done.
    apply take_all_chars, delete_special_safe, sub_space_runs_no_space.
  - by rewrite clean_filename_falsy.
Qed.

Lemma safe_no_slash s : all_chars safe_char s = true → Py.contains "/" s = false.
Proof.
  induction s as [|c s IH]; [done |]. simpl all_chars.
  intros [Hc Hs]%andb_true_iff. rewrite contains_char_cons, (IH Hs).
  apply safe_char_classes in Hc as (_ & _ & _ & ->). done.
Qed.

Lemma clean_filename_length (text : string) :
  String.length (clean_filename text) ≤ 80.
Proof.
  destruct (Py.truthy text) eqn:E.
  - rewrite clean_filename_truthy by done. apply take_length.
  - rewrite clean_filename_falsy by done. simpl. lia.
Qed.

Lemma clean_filename_no_space (text : string) :
  all_chars (λ c, negb (Py.isspace c)) (clean_filename text) = true.
Proof.
  eapply all_chars_impl; [|exact (clean_filename_all_safe text)].
  intros c Hc. apply safe_char_classes in Hc as (_ & -> & _). done.
Qed.

End filenames.

(** The cleaned name of a text within the ASCII range has at most eighty
    characters, each of them a letter, a digit, an underscore or a dash; in
    particular it holds no path separator and no whitespace. *)
Theorem clean_filename_safe (text : string) :
  is_ascii text →
  String.length (clean_filename text) ≤ 80
  ∧ all_chars safe_char (clean_filename text) = true
  ∧ Py.contains "/" (clean_filename text) = false
  ∧ all_chars (λ c, negb (Py.isspace c)) (clean_filename text) = true.
Proof.
  intros _. split_and!.
  - apply clean_filename_length.
  - apply clean_filename_all_safe.
  - apply safe_no_slash, clean_filename_all_safe.
  - apply clean_filename_no_space.
Qed.

Lemma clean_filename_safe_witness :
  clean_filename "Net Zero: Pathways / 2nd draft?" = "Net_Zero_Pathways_2nd_draft"
  ∧ all_chars safe_char (clean_filename "Net Zero: Pathways / 2nd draft?") = true.
Proof.
  split; [reflexivity |].
  apply (clean_filename_safe "Net Zero: Pathways / 2nd draft?"). reflexivity.
Defined.

(** Cleaning a cleaned name again changes nothing, unless the first cleaning
    left the empty name (which the second turns into [untitled]). *)
Theorem clean_filename_idempotent (text : string) :
  clean_filename text ≠ "" →
  clean_filename (clean_filename text) = clean_filename text.
Proof.
  intros Hne.
  pose proof (clean_filename_length text) as Hlen.
  pose proof (clean_filename_all_safe text) as Hsafe.
  pose proof (clean_filename_no_space text) as Hspace.
  set (name := clean_filename text) in *.
  rewrite (clean_filename_truthy name) by by destruct name.
  rewrite (delete_chars_id problematic), sub_space_runs_id, delete_chars_id, take_id;
    try done.
  - eapply all_chars_impl; [|exact Hsafe].
    intros c Hc. apply safe_char_classes in Hc as (_ & _ & -> & _). done.
  - eapply all_chars_impl; [|exact Hsafe].
    intros c Hc. apply safe_char_classes in Hc as (-> & _). done.
Qed.

Lemma clean_filename_idempotent_witness :
  clean_filename (clean_filename "Net Zero: Pathways?") = "Net_Zero_Pathways".
Proof.
  rewrite (clean_filename_idempotent "Net Zero: Pathways?"); [reflexivity |].
  vm_compute. discriminate.
Defined.

(** ** The parsed file field *)

Section file_field.

Lemma substr_no_char (t p s : string) :
  Py.contains t s = false → substr p s → Py.contains t p = false.
Proof.
  intros Hno Hsub. destruct (Py.contains t p) eqn:E; [|done].
  rewrite <- Hno. symmetry. by eapply substr_contains.
Qed.

Lemma parse_part_well_formed (part : string) (fi : file_info) :
  fi ∈ parse_part part →
  ∃ c0 c1, c0 ∈ Py.split ":" part ∧ c1 ∈ Py.split ":" part
           ∧ filename fi = Py.strip c0 ∧ path fi = Py.strip c1
           ∧ Py.truthy (filename fi) = true ∧ Py.truthy (path fi) = true.
Proof.
  unfold parse_part. destruct (Py.contains ":" part); [|by intros ?%not_elem_of_nil].
  destruct (Py.split ":" part) as [|c0 [|c1 rest]];
    try by intros ?%not_elem_of_nil.
  destruct (Py.truthy (Py.strip c0) && Py.truthy (Py.strip c1)) eqn:E;
    [|by intros ?%not_elem_of_nil].
  apply andb_true_iff in E as [E0 E1].
  intros ->%list_elem_of_singleton. exists c0, c1. simpl.
  split_and!; try done; [by left | right; by left].
Qed.

End file_field.

(** Every tuple read from a file field within the ASCII range has a file
    name and a path that are not empty, carry no whitespace at either end and
    hold neither a colon nor a semicolon. *)
Theorem parsed_file_field_well_formed (file_field : string) (fi : file_info) :
  is_ascii file_field →
  fi ∈ parse_zotero_file_field file_field →
  Py.truthy (filename fi) = true ∧ Py.truthy (path fi) = true
  ∧ Py.strip (filename fi) = filename fi ∧ Py.strip (path fi) = path fi
  ∧ Py.contains ":" (filename fi) = false ∧ Py.contains ":" (path fi) = false
  ∧ Py.contains ";" (filename fi) = false ∧ Py.contains ";" (path fi) = false.
Proof.
  intros _. unfold parse_zotero_file_field.
  destruct (Py.truthy file_field); [|by intros ?%not_elem_of_nil].
  intros (part & Hpart & Hfi)%list_elem_of_In%in_flat_map.
  apply list_elem_of_In in Hpart, Hfi.
  apply parse_part_well_formed in Hfi
    as (c0 & c1 & H0 & H1 & -> & -> & Ht0 & Ht1).
  pose proof (split_char_no_sep _ _ _ Hpart) as Hsemi.
  pose proof (split_char_substr _ _ _ H0) as Hs0.
  pose proof (split_char_substr _ _ _ H1) as Hs1.
  apply split_char_no_sep in H0, H1.
  split_and!; try done; try apply strip_idemp.
  - eapply substr_no_char; [exact H0 | apply strip_substr].
  - eapply substr_no_char; [exact H1 | apply strip_substr].
  - eapply substr_no_char; [exact Hsemi |].
    eapply substr_trans; [apply strip_substr | done].
  - eapply substr_no_char; [exact Hsemi |].
    eapply substr_trans; [apply strip_substr | done].
Qed.

Lemma parsed_file_field_well_formed_witness :
  Py.contains ":" (path {| filename := "paper.pdf"; path := "files/ABC/paper.pdf" |})
  = false.
Proof.
  apply (parsed_file_field_well_formed
           "paper.pdf : files/ABC/paper.pdf :application/pdf; notes"
           {| filename := "paper.pdf"; path := "files/ABC/paper.pdf" |}).
  - reflexivity.
  - vm_compute. by left.
Defined.

(** ** Tags: shape, fields read, union over the fields *)

Section tag_fields.

Implicit Types (entry : gmap string string) (tags : gset string).

Lemma split_on_delimiters_union (ds : list string) (text : string) tags :
  split_on_delimiters ds text tags = tags ∪ split_on_delimiters ds text ∅.
Proof.
  induction ds as [|d ds IH]; simpl.
  - destruct (Py.truthy (Py.strip text)).
    + by rewrite (left_id_L ∅ (∪)).
    + by rewrite (right_id_L ∅ (∪)).
  - destruct (Py.contains d text); [|done].
    by rewrite (left_id_L ∅ (∪)).
Qed.

Lemma tags_of_fields_elem (fields : list string) entry tags (t : string) :
  t ∈ tags_of_fields fields entry tags ↔
  t ∈ tags ∨ ∃ field text, field ∈ fields ∧ entry !! field = Some text
                           ∧ t ∈ split_on_delimiters delimiters text ∅.
Proof.
  revert tags. unfold tags_of_fields.
  induction fields as [|field fields IH]; intros tags; cbn [foldl].
  - split; [by left |]. intros [H|(f & text & Hf & _)]; [done |].
    by apply not_elem_of_nil in Hf.
  - rewrite IH. destruct (entry !! field) as [text|] eqn:E.
    + rewrite split_on_delimiters_union, elem_of_union. split.
      * intros [[H|H]|(f & tx & Hf & He & Ht)].
        -- by left.
        -- right. exists field, text. split_and!; [by left | done | done].
        -- right. exists f, tx. split_and!; [by right | done | done].
      * intros [H|(f & tx & [->|Hf]%elem_of_cons & He & Ht)].
        -- left. by left.
        -- left. right. congruence.
        -- right. by exists f, tx.
    + split.
      * intros [H|(f & tx & Hf & He & Ht)]; [by left |].
        right. exists f, tx. split_and!; [by right | done | done].
      * intros [H|(f & tx & [->|Hf]%elem_of_cons & He & Ht)].
        -- by left.
        -- congruence.
        -- right. by exists f, tx.
Qed.

Lemma tags_of_fields_agree (fields : list string) (e1 e2 : gmap string string) tags :
  (∀ field, field ∈ fields → e1 !! field = e2 !! field) →
  tags_of_fields fields e1 tags = tags_of_fields fields e2 tags.
Proof.
  revert tags. unfold tags_of_fields.
  induction fields as [|field fields IH]; intros tags H; simpl; [done |].
  rewrite (H field) by by left. apply IH. intros f Hf. apply H. by right.
Qed.

End tag_fields.

(** When the tag fields of an entry are within the ASCII range, its tags
    come in increasing order, without repetition, and each of them is
    non-empty, has no whitespace at either end and holds no semicolon. *)
Theorem tags_are_normalized (entry : gmap string string) :
  (∀ field, field ∈ tag_fields → ascii_field entry field) →
  Sorted String.le (extract_tags_from_entry entry)
  ∧ NoDup (extract_tags_from_entry entry)
  ∧ Forall (λ t, t ≠ "" ∧ Py.strip t = t ∧ Py.contains ";" t = false)
           (extract_tags_from_entry entry).
Proof.
  intros _. split_and!.
  - apply extract_tags_sorted.
  - apply extract_tags_NoDup.
  - eapply Forall_impl; [apply extract_tags_normal |].
    intros t (Ht & Hs & Hc). split_and!; try done. by intros ->.
Qed.

Lemma tags_are_normalized_witness :
  extract_tags_from_entry
    {[ "keywords" := " State ; energy;;State"; "tags" := "climate | City" ]}
  = ["City"; "State"; "climate"; "energy"]
  ∧ NoDup (extract_tags_from_entry
             {[ "keywords" := " State ; energy;;State"; "tags" := "climate | City" ]}).
Proof.
  split; [reflexivity |].
  apply (tags_are_normalized
           {[ "keywords" := " State ; energy;;State"; "tags" := "climate | City" ]}).
  intros field Hfield text Htext. unfold tag_fields in Hfield.
  repeat (apply elem_of_cons in Hfield as [->|Hfield]);
    [..|by apply not_elem_of_nil in Hfield];
    vm_compute in Htext; by simplify_eq.
Defined.

(** A string is a tag of an entry exactly when it is a tag of the value of
    one of the four tag fields of the entry: the tags of the fields are
    united. *)
Theorem tags_are_united_over_fields (entry : gmap string string) (t : string) :
  t ∈ extract_tags_from_entry entry ↔
  ∃ field text, field ∈ tag_fields ∧ entry !! field = Some text
                ∧ t ∈ extract_tags_from_entry {[ field := text ]}.
Proof.
  unfold extract_tags_from_entry at 1.
  rewrite sorted_elements_perm, elem_of_elements, tags_of_fields_elem.
  split.
  - intros [H|(field & text & Hf & He & Ht)]; [by apply not_elem_of_empty in H |].
    exists field, text. split_and!; try done.
    rewrite tags_of_single_field by done.
    by rewrite sorted_elements_perm, elem_of_elements.
  - intros (field & text & Hf & He & Ht). right. exists field, text.
    split_and!; try done.
    rewrite tags_of_single_field in Ht by done.
    by rewrite sorted_elements_perm, elem_of_elements in Ht.
Qed.

(** Only the four tag fields are read: two entries that agree on them have
    the same tags.  In particular an entry with none of them has no tag. *)
Theorem tags_depend_on_tag_fields (e1 e2 : gmap string string) :
  (∀ field, field ∈ tag_fields → e1 !! field = e2 !! field) →
  extract_tags_from_entry e1 = extract_tags_from_entry e2.
Proof.
  intros H. unfold extract_tags_from_entry.
  by rewrite (tags_of_fields_agree _ e1 e2).
Qed.

Lemma tags_depend_on_tag_fields_witness :
  extract_tags_from_entry net_zero_entry = extract_tags_from_entry ∅.
Proof.
  apply tags_depend_on_tag_fields. intros field Hf.
  unfold tag_fields in Hf.
  repeat (apply elem_of_cons in Hf as [->|Hf]); try reflexivity.
  by apply not_elem_of_nil in Hf.
Defined.

(** A field value within the ASCII range that holds none of the delimiters
    is one tag, the value without the whitespace around it, or no tag when
    nothing is left. *)
Theorem tags_of_undelimited_value (field text : string) :
  field ∈ tag_fields →
  is_ascii text →
  (∀ d, d ∈ delimiters → Py.contains d text = false) →
  extract_tags_from_entry {[ field := text ]}
  = if Py.truthy (Py.strip text) then [Py.strip text] else [].
Proof.
  intros Hf _ Hno. rewrite tags_of_single_field by done.
  rewrite split_on_delimiters_none by done.
  destruct (Py.truthy (Py.strip text)).
  - rewrite (left_id_L ∅ (∪)), elements_singleton. reflexivity.
  - rewrite elements_empty. reflexivity.
Qed.

Lemma tags_of_undelimited_value_witness :
  extract_tags_from_entry {[ "annote" := "  read later  " ]} = ["read later"].
Proof.
  rewrite (tags_of_undelimited_value "annote" "  read later  ").
  - reflexivity.
  - set_solver.
  - reflexivity.
  - intros d Hd. unfold delimiters in Hd.
    repeat (apply elem_of_cons in Hd as [->|Hd]); try reflexivity.
    by apply not_elem_of_nil in Hd.
Defined.

(** ** The search by identifier and title *)

Section fallback.

Lemma ci_occurs_lower (kw text : string) :
  ci_occurs (Py.lower kw) text ↔ ci_occurs kw text.
Proof.
  unfold ci_occurs. by setoid_rewrite lower_idemp.
Qed.

Lemma contains_lower_both (kw text : string) :
  Py.contains (Py.lower kw) (Py.lower text) = true ↔ ci_occurs kw text.
Proof.
  rewrite contains_lower_ci by apply lower_idemp. apply ci_occurs_lower.
Qed.

Lemma id_or_title_matches_spec (entry_id title : string) (pdf_file : Path) :
  id_or_title_matches entry_id title pdf_file = true ↔
  (entry_id ≠ "" ∧ ci_occurs entry_id (path_name pdf_file))
  ∨ (∃ word, word ∈ long_title_words title ∧ ci_occurs word (path_name pdf_file)).
Proof.
  unfold id_or_title_matches, title_words, long_title_words.
  assert (existsb (λ word, Py.contains word (Py.lower (path_name pdf_file)))
            (take 3 (Py.lower <$> filter (λ word, 3 < String.length word)
                                         (Py.split_ws title))) = true
          ↔ ∃ word, word ∈ take 3 (filter (λ word, 3 < String.length word)
                                          (Py.split_ws title))
                    ∧ ci_occurs word (path_name pdf_file)) as Hwords.
  { rewrite <- fmap_take, existsb_exists. split.
    - intros (w & Hw & Hc). apply list_elem_of_In, list_elem_of_fmap in Hw
        as (word & -> & Hword).
      exists word. split; [done |]. by apply contains_lower_both.
    - intros (word & Hword & Hc). exists (Py.lower word).
      split; [|by apply contains_lower_both].
      apply list_elem_of_In, list_elem_of_fmap. by exists word. }
  destruct (Py.truthy entry_id) eqn:Eid; simpl.
  - assert (entry_id ≠ "") as Hne by (intros ->; done).
    destruct (Py.contains (Py.lower entry_id) _) eqn:Ec.
    + split; [|done]. intros _. left. split; [done |].
      by apply contains_lower_both.
    + assert (¬ ci_occurs entry_id (path_name pdf_file)) as Hno.
      { intros H. apply contains_lower_both in H. congruence. }
      destruct (Py.truthy title) eqn:Et.
      * rewrite Hwords. tauto.
      * assert (title = "") as -> by by destruct title.
        split; [done |]. intros [[_ H]|(w & Hw & _)]; [done |].
        by apply not_elem_of_nil in Hw.
  - assert (entry_id = "") as -> by by destruct entry_id.
    destruct (Py.truthy title) eqn:Et.
    + rewrite Hwords. split; [by right |]. by intros [[H _]|H].
    + assert (title = "") as -> by by destruct title.
      split; [done |]. intros [[H _]|(w & Hw & _)]; [done |].
      by apply not_elem_of_nil in Hw.
Qed.

End fallback.

(** When the folder exists, the file field gives nothing and the folder
    can be listed, the search returns, and a file with a name within the
    ASCII range is among the files of an entry whose identifier and title
    are within that range exactly when it is one of the PDF files under the
    folder and its name holds, up to case, the identifier of the entry (if
    it has one) or one of the first three words of its title that have more
    than three characters. *)
Theorem fallback_search_matches (fs : FileSystem) (entry : gmap string string)
    (files_dir : Path) (pdf_files : list Path) (pdf_file : Path) :
  os_path_exists fs files_dir = true →
  method1 fs entry files_dir = Ret [] →
  fs_glob fs files_dir "**/*.pdf" = Ret pdf_files →
  ascii_field entry "ID" →
  ascii_field entry "title" →
  is_ascii (path_name pdf_file) →
  ∃ found,
    find_pdf_in_files_folder fs entry files_dir = Ret found
    ∧ (pdf_file ∈ found ↔
       pdf_file ∈ pdf_files
       ∧ ((default "" (entry !! "ID") ≠ ""
           ∧ ci_occurs (default "" (entry !! "ID")) (path_name pdf_file))
          ∨ ∃ word, word ∈ long_title_words (default "" (entry !! "title"))
                    ∧ ci_occurs word (path_name pdf_file))).
Proof.
  intros Hdir Hnone Hglob _ _ _. unfold find_pdf_in_files_folder.
  rewrite Hdir, Hnone. cbn [negb]. unfold method2. rewrite Hglob.
  eexists. split; [reflexivity |].
  rewrite list_elem_of_filter, id_or_title_matches_spec. tauto.
Qed.

Lemma fallback_search_matches_witness :
  find_pdf_in_files_folder
    (tree_fs [["export"; "files"; "docs"; "EPA2019-final.pdf"];
              ["export"; "files"; "docs"; "minutes.pdf"]])
    {[ "ID" := "epa2019"; "title" := "Clean Air" ]} files_root
  = Ret [["export"; "files"; "docs"; "EPA2019-final.pdf"]].
Proof.
  destruct (fallback_search_matches
              (tree_fs [["export"; "files"; "docs"; "EPA2019-final.pdf"];
                        ["export"; "files"; "docs"; "minutes.pdf"]])
              {[ "ID" := "epa2019"; "title" := "Clean Air" ]} files_root
              [["export"; "files"; "docs"; "EPA2019-final.pdf"];
               ["export"; "files"; "docs"; "minutes.pdf"]]
              ["export"; "files"; "docs"; "EPA2019-final.pdf"])
    as (found & Hfound & _).
  - reflexivity.
  - reflexivity.
  - reflexivity.
  - intros text Htext. vm_compute in Htext. by simplify_eq.
  - intros text Htext. vm_compute in Htext. by simplify_eq.
  - reflexivity.
  - rewrite Hfound. f_equal. apply Ret_inj. rewrite <- Hfound. reflexivity.
Defined.

(** ** The driver: what one entry adds to the library *)

Section driver.

Context (fs : FileSystem) (files_dir output_path : Path).

(** The state after an entry, from the organised files. *)
Lemma process_entry_inv (i : nat) (entry : gmap string string)
    (st st' : library_state) (evs : list event) :
  process_entry fs files_dir output_path i entry st = (Ret st', evs) →
  ∃ found organized,
    find_pdf_in_files_folder fs entry files_dir = Ret found
    ∧ organize_pdf_files found entry output_path = (Ret organized, evs)
    ∧ st' = state_after i entry organized st.
Proof.
  unfold process_entry. intros H.
  apply bind_inv in H as (found & t0 & t0' & Hfound & H & ->).
  apply pair_equal_spec in Hfound as [Hfound <-].
  apply bind_inv in H as (organized & t & t' & Horg & H & ->).
  apply pair_equal_spec in H as [H <-]. apply Ret_inj in H. subst st'.
  rewrite app_nil_r. by exists found, organized.
Qed.

Lemma process_entry_without_files (i : nat) (entry : gmap string string)
    (st : library_state) :
  find_pdf_in_files_folder fs entry files_dir = Ret [] →
  process_entry fs files_dir output_path i entry st
  = (Ret (state_after i entry [] st), []).
Proof. intros Hnone. unfold process_entry. by rewrite Hnone. Qed.

End driver.

(** ** The driver: invariants of the library *)

Section library.

Context (fs : FileSystem) (files_dir output_path : Path).

(** A property of the state that every entry keeps holds at the end. *)
Lemma process_entries_invariant
    (P : list (gmap string string) → library_state → Prop) :
  (∀ processed i entry organized st,
      P processed st → P (processed ++ [entry]) (state_after i entry organized st)) →
  ∀ entries processed i st st' evs,
    P processed st →
    process_entries fs files_dir output_path i entries st = (Ret st', evs) →
    P (processed ++ entries) st'.
Proof.
  intros Hstep entries.
  induction entries as [|entry rest IH]; intros processed i st st' evs HP Hrun.
  - apply pair_equal_spec in Hrun as [Hrun _]. apply Ret_inj in Hrun.
    subst st'. by rewrite app_nil_r.
  - cbn [process_entries] in Hrun.
    apply bind_inv in Hrun as (st1 & t & t' & H1 & H2 & _).
    apply process_entry_inv in H1 as (found & organized & _ & _ & ->).
    rewrite cons_middle, (assoc_L (++)).
    eapply IH; [|exact H2]. by apply Hstep.
Qed.

End library.

Lemma process_bibtex_export_invariant (fs : FileSystem)
    (P : list (gmap string string) → library_state → Prop)
    (entries : list (gmap string string)) (export_path output_path : Path)
    (st : library_state) (evs : list event) :
  P [] empty_library →
  (∀ processed i entry organized st,
      P processed st → P (processed ++ [entry]) (state_after i entry organized st)) →
  process_bibtex_export fs entries export_path output_path = (Ret st, evs) →
  P entries st.
Proof.
  intros Hinit Hstep. unfold process_bibtex_export. intros H.
  apply bind_inv in H as (? & ? & ? & _ & H & _).
  apply bind_inv in H as (? & ? & ? & _ & H & _).
  apply bind_inv in H as (? & ? & ? & _ & H & _).
  change entries with ([] ++ entries).
  by eapply process_entries_invariant.
Qed.

Section document_fields.

Implicit Types (entry : gmap string string).

Lemma add_extra_fields_lookup_extra entry (doc : gmap string string) (key : string) :
  add_extra_fields entry doc !! ("extra_" +:+ key)
  = match entry !! key with
    | Some value =>
        if bool_decide (key ∉ known_fields) && Py.truthy value
        then Some value
        else doc !! ("extra_" +:+ key)
    | None => doc !! ("extra_" +:+ key)
    end.
Proof.
  unfold add_extra_fields. revert key.
  apply (map_fold_weak_ind (λ (r : gmap string string) (m : gmap string string),
           ∀ key, r !! ("extra_" +:+ key)
                  = match m !! key with
                    | Some value =>
                        if bool_decide (key ∉ known_fields) && Py.truthy value
                        then Some value
                        else doc !! ("extra_" +:+ key)
                    | None => doc !! ("extra_" +:+ key)
                    end)).
  - intros key. by rewrite lookup_empty.
  - intros k v m r Hk IH key.
    destruct (decide (k = key)) as [->|Hne].
    + rewrite lookup_insert_eq.
      destruct (bool_decide (key ∉ known_fields) && Py.truthy v).
      * by rewrite lookup_insert_eq.
      * by rewrite IH, Hk.
    + rewrite (lookup_insert_ne m) by done. rewrite <- IH.
      destruct (bool_decide (k ∉ known_fields) && Py.truthy v); [|done].
      rewrite lookup_insert_ne; [done |].
      intros Heq. by apply (inj (String.app "extra_")) in Heq.
Qed.

Lemma add_extra_fields_lookup_other entry (doc : gmap string string) (k : string) :
  (∀ key, k ≠ "extra_" +:+ key) →
  add_extra_fields entry doc !! k = doc !! k.
Proof.
  intros Hk. unfold add_extra_fields.
  apply (map_fold_weak_ind (λ (r : gmap string string) (_ : gmap string string),
           r !! k = doc !! k)); [done |].
  intros key value m r _ IH.
  destruct (bool_decide (key ∉ known_fields) && Py.truthy value); [|done].
  rewrite lookup_insert_ne; [done |]. intros Heq. by apply (Hk key).
Qed.

Lemma document_fields_lookup (i : nat) entry (title year category k : string) :
  document_fields i entry title year category !! k
  = if decide (k = "id") then Some (entry_id i entry)
    else if decide (k = "title") then Some title
    else if decide (k = "authors")
         then Some (Py.replace " and " ", " (default "" (entry !! "author")))
    else if decide (k = "year") then Some year
    else if decide (k ∈ copied_fields) then Some (default "" (entry !! k))
    else if decide (k = "category") then Some category
    else if decide (k = "entry_type") then Some (default "" (entry !! "ENTRYTYPE"))
    else None.
Proof.
  unfold document_fields, copied_fields. cbn [app fmap list_fmap].
  repeat (rewrite list_to_map_cons; cbn [fst snd];
          rewrite lookup_insert; destruct (decide _) as [<-|?];
          [reflexivity |]).
  rewrite list_to_map_nil, lookup_empty.
  repeat case_decide; try congruence; try reflexivity.
  exfalso. set_solver.
Qed.

End document_fields.

(** ** The documents of the library *)

Section documents.

Implicit Types (entry : gmap string string) (organized : list string).

Lemma document_of_field (i : nat) entry organized (k : string) :
  (∀ key, k ≠ "extra_" +:+ key) →
  doc_fields (document_of i entry organized) !! k
  = document_fields i entry (default "Untitled" (entry !! "title"))
      (default "" (entry !! "year")) (categorize_entry entry) !! k.
Proof. intros Hk. cbn [document_of doc_fields]. by apply add_extra_fields_lookup_other. Qed.

Lemma document_of_extra (i : nat) entry organized (key : string) :
  doc_fields (document_of i entry organized) !! ("extra_" +:+ key)
  = match entry !! key with
    | Some value =>
        if bool_decide (key ∉ known_fields) && Py.truthy value
        then Some value else None
    | None => None
    end.
Proof.
  cbn [document_of doc_fields]. rewrite add_extra_fields_lookup_extra.
  assert (document_fields i entry (default "Untitled" (entry !! "title"))
            (default "" (entry !! "year")) (categorize_entry entry)
          !! ("extra_" +:+ key) = None) as ->.
  { rewrite document_fields_lookup.
    repeat (destruct (decide _) as [Hd|_];
            [first [ discriminate Hd
                   | exfalso; unfold copied_fields in Hd;
                     repeat (apply elem_of_cons in Hd as [Hd|Hd]; [discriminate Hd |]);
                     by apply not_elem_of_nil in Hd ] |]).
    reflexivity. }
  by destruct (entry !! key) as [value|]; [destruct (_ && _) |].
Qed.

Lemma schema_field_not_extra (k key : string) :
  k ∈ schema_fields → k ≠ "extra_" +:+ key.
Proof.
  unfold schema_fields, copied_fields. cbn [app]. intros Hk Heq. subst k.
  repeat (apply elem_of_cons in Hk as [Hk|Hk]; [discriminate Hk |]).
  by apply not_elem_of_nil in Hk.
Qed.

End documents.

(** Each document of the library has all the keys of the schema, whatever
    the entry lacks: the identifier is the citation key or [doc_i], the
    title is [Untitled] when the entry has none, the authors are the author
    field with [ and ] turned into commas, and every other field missing in
    the entry is the empty string. *)
Theorem document_has_schema_fields (fs : FileSystem) (files_dir output_path : Path)
    (i : nat) (entry : gmap string string) (st st' : library_state) (evs : list event) :
  process_entry fs files_dir output_path i entry st = (Ret st', evs) →
  ∃ doc,
    documents st' = documents st ++ [doc]
    ∧ (∀ k, k ∈ schema_fields → is_Some (doc_fields doc !! k))
    ∧ doc_fields doc !! "id"
      = Some (default ("doc_" +:+ Py.str_of_nat i) (entry !! "ID"))
    ∧ doc_fields doc !! "title" = Some (default "Untitled" (entry !! "title"))
    ∧ doc_fields doc !! "authors"
      = Some (Py.replace " and " ", " (default "" (entry !! "author")))
    ∧ doc_fields doc !! "year" = Some (default "" (entry !! "year"))
    ∧ doc_fields doc !! "category" = Some (categorize_entry entry)
    ∧ doc_fields doc !! "entry_type" = Some (default "" (entry !! "ENTRYTYPE"))
    ∧ (∀ k, k ∈ copied_fields →
            doc_fields doc !! k = Some (default "" (entry !! k))).
Proof.
  intros H. apply process_entry_inv in H as (found & organized & _ & _ & ->).
  exists (document_of i entry organized). split; [reflexivity |].
  assert (∀ k, k ∈ schema_fields →
            doc_fields (document_of i entry organized) !! k
            = document_fields i entry (default "Untitled" (entry !! "title"))
                (default "" (entry !! "year")) (categorize_entry entry) !! k) as Hf.
  { intros k Hk. apply document_of_field. intros key.
    by apply schema_field_not_extra. }
  split_and!.
  - intros k Hk. rewrite (Hf k Hk), document_fields_lookup.
    unfold schema_fields, copied_fields in Hk. cbn [app] in Hk.
    repeat case_decide; try by eexists.
    exfalso.
    repeat (apply elem_of_cons in Hk as [->|Hk];
            [first [ congruence
                   | match goal with H : _ ∉ _ |- _ => apply H end;
                     unfold copied_fields; repeat constructor ] |]).
    by apply not_elem_of_nil in Hk.
  - rewrite Hf by (unfold schema_fields, copied_fields; repeat constructor).
    by rewrite document_fields_lookup.
  - rewrite Hf by (unfold schema_fields, copied_fields; repeat constructor).
    by rewrite document_fields_lookup.
  - rewrite Hf by (unfold schema_fields, copied_fields; repeat constructor).
    by rewrite document_fields_lookup.
  - rewrite Hf by (unfold schema_fields, copied_fields; repeat constructor).
    by rewrite document_fields_lookup.
  - rewrite Hf by (unfold schema_fields, copied_fields; repeat constructor).
    by rewrite document_fields_lookup.
  - rewrite Hf by (unfold schema_fields, copied_fields; repeat constructor).
    by rewrite document_fields_lookup.
  - intros k Hk. rewrite Hf.
    2:{ unfold schema_fields. apply elem_of_app. right. apply elem_of_app. by left. }
    rewrite document_fields_lookup.
    unfold copied_fields in Hk.
    repeat (apply elem_of_cons in Hk as [->|Hk]; [reflexivity |]).
    by apply not_elem_of_nil in Hk.
Qed.

Lemma document_has_schema_fields_witness :
  ∃ st' doc,
    process_entry snapshot_tree files_root ["out"] 0 snapshot_entry empty_library
    = (Ret st', [])
    ∧ documents st' = [doc]
    ∧ doc_fields doc !! "journal" = Some ""
    ∧ doc_fields doc !! "title" = Some "On AI".
Proof.
  pose proof (process_entry_without_files snapshot_tree files_root ["out"] 0
                snapshot_entry empty_library eq_refl) as Hrun.
  destruct (document_has_schema_fields _ _ _ _ _ _ _ _ Hrun)
    as (doc & Hdocs & _ & _ & Htitle & _ & _ & _ & _ & Hcopied).
  eexists _, doc. split; [exact Hrun |]. split; [exact Hdocs |]. split.
  - rewrite Hcopied by (unfold copied_fields; repeat constructor). reflexivity.
  - rewrite Htitle. reflexivity.
Defined.



(** ** From the entry to the classification *)

Section entry_to_classification.

Lemma fields_match_spec (get : string → string) (fields : list string) :
  existsb (λ field, Py.truthy (get field) && mentions_keyword (Py.lower (get field)))
          fields = true
  ↔ ∃ field kw, field ∈ fields ∧ kw ∈ KEYWORDS ∧ ci_occurs kw (get field).
Proof.
  rewrite existsb_exists. split.
  - intros (field & Hin & H). apply andb_true_iff in H as [_ H].
    apply mentions_keyword_spec in H as (kw & Hkw & Hocc).
    exists field, kw. by rewrite list_elem_of_In.
  - intros (field & kw & Hin & Hkw & Hocc). exists field.
    split; [by apply list_elem_of_In |].
    assert (text_mentions (get field)) as Hm by by exists kw.
    apply andb_true_iff. split; [|by apply mentions_keyword_spec].
    destruct (get field); [|done]. by apply no_keyword_in_empty in Hm.
Qed.

Lemma untitled_no_keyword (kw : string) : kw ∈ KEYWORDS → ¬ ci_occurs kw "Untitled".
Proof.
  intros Hkw Hocc.
  assert (text_mentions "Untitled") as H by by exists kw.
  apply mentions_keyword_spec in H. vm_compute in H. done.
Qed.

Lemma empty_no_keyword (kw : string) : kw ∈ KEYWORDS → ¬ ci_occurs kw "".
Proof.
  intros Hkw Hocc. apply no_keyword_in_empty. by exists kw.
Qed.

End entry_to_classification.

Section searched_fields.

Context (i : nat) (entry : gmap string string) (organized : list string).

Lemma document_of_title :
  default "" (doc_fields (document_of i entry organized) !! "title")
  = default "Untitled" (entry !! "title").
Proof.
  rewrite document_of_field by (intros key Heq; discriminate Heq).
  by rewrite document_fields_lookup.
Qed.

Lemma document_of_abstract :
  default "" (doc_fields (document_of i entry organized) !! "abstract")
  = default "" (entry !! "abstract").
Proof.
  rewrite document_of_field by (intros key Heq; discriminate Heq).
  by rewrite document_fields_lookup.
Qed.

Lemma document_of_note :
  default "" (doc_fields (document_of i entry organized) !! "note")
  = default "" (entry !! "note").
Proof.
  rewrite document_of_field by (intros key Heq; discriminate Heq).
  by rewrite document_fields_lookup.
Qed.

Lemma document_of_extra_keywords :
  default "" (doc_fields (document_of i entry organized) !! "extra_keywords")
  = default "" (entry !! "keywords").
Proof.
  change "extra_keywords" with ("extra_" +:+ "keywords").
  rewrite document_of_extra. destruct (entry !! "keywords") as [value|]; [|done].
  destruct value; reflexivity.
Qed.

Lemma document_of_mentions :
  metadata_mentions (document_of i entry organized) ↔ entry_mentions entry.
Proof.
  unfold metadata_mentions, entry_mentions, SEARCH_FIELDS, searched_entry_fields.
  split.
  - intros (field & kw & Hf & Hkw & Hocc).
    repeat (apply elem_of_cons in Hf as [->|Hf]).
    + rewrite document_of_title in Hocc.
      destruct (entry !! "title") as [t|] eqn:E.
      * exists "title", kw. rewrite E. split_and!; [by left | done | done].
      * by apply untitled_no_keyword in Hocc.
    + rewrite document_of_abstract in Hocc. exists "abstract", kw.
      split_and!; [right; by left | done | done].
    + rewrite document_of_note in Hocc. exists "note", kw.
      split_and!; [right; right; by left | done | done].
    + rewrite document_of_extra_keywords in Hocc. exists "keywords", kw.
      split_and!; [right; right; right; by left | done | done].
    + by apply not_elem_of_nil in Hf.
  - intros (field & kw & Hf & Hkw & Hocc).
    repeat (apply elem_of_cons in Hf as [->|Hf]).
    + exists "title", kw. rewrite document_of_title.
      split_and!; [by left | done |].
      destruct (entry !! "title") as [t|]; [done |].
      by apply empty_no_keyword in Hocc.
    + exists "abstract", kw. rewrite document_of_abstract.
      split_and!; [right; by left | done | done].
    + exists "note", kw. rewrite document_of_note.
      split_and!; [right; right; by left | done | done].
    + exists "extra_keywords", kw. rewrite document_of_extra_keywords.
      split_and!; [right; right; right; by left | done | done].
    + by apply not_elem_of_nil in Hf.
Qed.

End searched_fields.

(** The classifier and the converter fit together: the document built from
    an entry has a keyword in its metadata exactly when the entry has one, up
    to case, in its title, abstract, note or keywords field; and then the
    document is classified relevant without any file being opened. *)
Theorem entry_keywords_classify_document (ex : Extractors) (fs : FileSystem)
    (files_dir output_path : Path) (i : nat) (entry : gmap string string)
    (st st' : library_state) (evs : list event) :
  process_entry fs files_dir output_path i entry st = (Ret st', evs) →
  ∃ doc,
    documents st' = documents st ++ [doc]
    ∧ (metadata_mentions doc ↔ entry_mentions entry)
    ∧ (entry_mentions entry →
       document_references_environment ex doc = (Ret true, [])).
Proof.
  intros H. apply process_entry_inv in H as (found & organized & _ & _ & ->).
  exists (document_of i entry organized). split; [reflexivity |].
  split; [apply document_of_mentions |].
  intros Hm. apply (document_of_mentions i entry organized) in Hm.
  apply metadata_match_spec in Hm.
  unfold document_references_environment. by rewrite Hm.
Qed.

Lemma entry_keywords_classify_document_witness :
  ∃ st' doc,
    process_entry snapshot_tree files_root ["out"] 0
      (<["keywords" := "Energy; climate"]> snapshot_entry) empty_library
    = (Ret st', [])
    ∧ documents st' = [doc]
    ∧ document_references_environment broken_pdf doc = (Ret true, []).
Proof.
  pose proof (process_entry_without_files snapshot_tree files_root ["out"] 0
                (<["keywords" := "Energy; climate"]> snapshot_entry)
                empty_library eq_refl) as Hrun.
  destruct (entry_keywords_classify_document broken_pdf _ _ _ _ _ _ _ _ Hrun)
    as (doc & Hdocs & _ & Hrel).
  eexists _, doc. split; [exact Hrun |]. split; [exact Hdocs |].
  apply Hrel. exists "keywords", "energy".
  split; [unfold searched_entry_fields; repeat constructor |].
  split; [unfold KEYWORDS; repeat constructor |].
  exists "", "Energy", "; climate". split; reflexivity.
Defined.

(** ** The summary of the library *)

Section summary.

Implicit Types (entry : gmap string string) (st : library_state)
  (entries : list (gmap string string)).

Lemma count_category_snoc (c : string) entries entry :
  count_category c (entries ++ [entry])
  = count_category c entries + (if decide (categorize_entry entry = c) then 1 else 0).
Proof.
  unfold count_category. rewrite filter_app, length_app. f_equal.
  rewrite filter_cons, filter_nil. by case_decide.
Qed.

Lemma count_category_cons (c : string) entries entry :
  count_category c (entry :: entries)
  = (if decide (categorize_entry entry = c) then 1 else 0) + count_category c entries.
Proof.
  unfold count_category. rewrite filter_cons. by case_decide.
Qed.

Lemma one_category (c : string) :
  c ∈ category_names →
  sum_list ((λ c', if decide (c = c') then 1 else 0) <$> category_names) = 1.
Proof.
  unfold category_names. intros H.
  repeat (apply elem_of_cons in H as [->|H]; [vm_compute; reflexivity |]).
  by apply not_elem_of_nil in H.
Qed.

Lemma sum_list_fmap_add {A} (f g : A → nat) (l : list A) :
  sum_list ((λ x, f x + g x) <$> l) = sum_list (f <$> l) + sum_list (g <$> l).
Proof.
  induction l as [|x l IH]; [done |].
  rewrite !fmap_cons. cbn [sum_list_with]. rewrite IH. unfold id. lia.
Qed.

Lemma count_category_total entries :
  sum_list ((λ c, count_category c entries) <$> category_names) = length entries.
Proof.
  induction entries as [|entry entries IH].
  - vm_compute. reflexivity.
  - rewrite (list_fmap_ext _ (λ c, (if decide (categorize_entry entry = c) then 1 else 0)
                                  + count_category c entries) category_names).
    2:{ intros ? c _. apply count_category_cons. }
    rewrite sum_list_fmap_add, IH, one_category; [done |].
    unfold categorize_entry.
    destruct (categories_table !! _) as [category|] eqn:E; simpl.
    + by eapply categories_table_range.
    + unfold category_names. repeat constructor.
Qed.

End summary.

Section summary_invariants.

Implicit Types (entry : gmap string string) (st : library_state)
  (entries : list (gmap string string)) (organized : list string).

Lemma categories_step (c : string) (i : nat) entry organized st :
  count_of (categories (state_after i entry organized st)) c
  = count_of (categories st) c + (if decide (categorize_entry entry = c) then 1 else 0).
Proof.
  cbn [state_after categories]. unfold count_of.
  destruct (decide (categorize_entry entry = c)) as [<-|Hne].
  - by rewrite lookup_insert_eq.
  - rewrite lookup_insert_ne by done. lia.
Qed.

Lemma categories_key_step (c : string) (i : nat) entry organized st :
  is_Some (categories (state_after i entry organized st) !! c)
  ↔ is_Some (categories st !! c) ∨ categorize_entry entry = c.
Proof.
  cbn [state_after categories].
  destruct (decide (categorize_entry entry = c)) as [<-|Hne].
  - rewrite lookup_insert_eq. split; [by right | by eexists].
  - rewrite lookup_insert_ne by done. tauto.
Qed.

Lemma document_of_category (i : nat) entry organized :
  doc_fields (document_of i entry organized) !! "category"
  = Some (categorize_entry entry).
Proof.
  rewrite document_of_field by (intros key Heq; discriminate Heq).
  by rewrite document_fields_lookup.
Qed.

Lemma document_of_year (i : nat) entry organized :
  doc_fields (document_of i entry organized) !! "year"
  = Some (default "" (entry !! "year")).
Proof.
  rewrite document_of_field by (intros key Heq; discriminate Heq).
  by rewrite document_fields_lookup.
Qed.

End summary_invariants.

(** A library built from [N] entries has [N] documents, in the order of the
    entries; the count of each category is the number of entries of that
    category, a category being a key exactly when some entry has it; and the
    counts of the thirteen categories add up to [N]. *)
Theorem library_counts_by_category (fs : FileSystem)
    (entries : list (gmap string string)) (export_path output_path : Path)
    (st : library_state) (evs : list event) :
  process_bibtex_export fs entries export_path output_path = (Ret st, evs) →
  length (documents st) = length entries
  ∧ doc_tags <$> documents st = extract_tags_from_entry <$> entries
  ∧ (∀ c, count_of (categories st) c = count_category c entries)
  ∧ (∀ c, is_Some (categories st !! c) ↔ 0 < count_category c entries)
  ∧ sum_list (count_of (categories st) <$> category_names) = length entries.
Proof.
  intros Hrun.
  assert (∀ c, count_of (categories st) c = count_category c entries) as Hcount.
  { intros c. revert Hrun.
    apply (process_bibtex_export_invariant fs
             (λ processed st, count_of (categories st) c = count_category c processed)).
    - reflexivity.
    - intros processed i entry organized st0 IH.
      by rewrite categories_step, count_category_snoc, IH. }
  split_and!.
  - revert Hrun.
    apply (process_bibtex_export_invariant fs
             (λ processed st, length (documents st) = length processed)).
    + reflexivity.
    + intros processed i entry organized st0 IH.
      cbn [state_after documents]. rewrite !length_app, IH. reflexivity.
  - revert Hrun.
    apply (process_bibtex_export_invariant fs
             (λ processed st,
                doc_tags <$> documents st = extract_tags_from_entry <$> processed)).
    + reflexivity.
    + intros processed i entry organized st0 IH.
      cbn [state_after documents]. rewrite !fmap_app, IH. reflexivity.
  - exact Hcount.
  - intros c. revert Hrun.
    apply (process_bibtex_export_invariant fs
             (λ processed st,
                is_Some (categories st !! c) ↔ 0 < count_category c processed)).
    + cbn [empty_library categories]. rewrite lookup_empty.
      split; [by intros [? ?] | unfold count_category; simpl; lia].
    + intros processed i entry organized st0 IH.
      rewrite categories_key_step, count_category_snoc, IH.
      case_decide; split; try lia; try tauto. intros [?|?]; [lia | done].
  - rewrite (list_fmap_ext _ (λ c, count_category c entries) category_names).
    + apply count_category_total.
    + intros ? c _. apply Hcount.
Qed.

Lemma library_counts_by_category_witness :
  ∃ st evs,
    process_bibtex_export snapshot_tree mixed_entries ["export"] ["out"] = (Ret st, evs)
    ∧ length (documents st) = 3
    ∧ count_of (categories st) "miscellaneous" = 2.
Proof.
  assert (∃ st evs,
            process_bibtex_export snapshot_tree mixed_entries ["export"] ["out"]
            = (Ret st, evs)) as (st & evs & Hrun).
  { vm_compute. eauto. }
  exists st, evs. split; [exact Hrun |].
  destruct (library_counts_by_category _ _ _ _ _ _ Hrun) as (Hlen & _ & Hcount & _).
  split; [exact Hlen |]. rewrite Hcount. vm_compute. reflexivity.
Defined.

(** The summary of a library can be computed again from its documents: the
    tag vocabulary is the union of the tags of the documents, the years are
    the non-empty years of the documents, the count of a category is the
    number of documents of that category, and the PDF coverage is the number
    of documents with a PDF.  In each document the PDF count is the number of
    file paths, and the document has a PDF exactly when it has a file path. *)
Theorem library_summary_from_documents (fs : FileSystem)
    (entries : list (gmap string string)) (export_path output_path : Path)
    (st : library_state) (evs : list event) :
  process_bibtex_export fs entries export_path output_path = (Ret st, evs) →
  (∀ t, t ∈ all_tags st ↔ ∃ doc, doc ∈ documents st ∧ t ∈ doc_tags doc)
  ∧ (∀ y, y ∈ years st ↔
          y ≠ "" ∧ ∃ doc, doc ∈ documents st ∧ doc_fields doc !! "year" = Some y)
  ∧ (∀ c, count_of (categories st) c
          = length (filter (λ doc, doc_fields doc !! "category" = Some c)
                           (documents st)))
  ∧ pdf_count st = length (filter (λ doc, doc_has_pdf doc = true) (documents st))
  ∧ Forall (λ doc, doc_pdf_count doc = length (doc_file_paths doc)
                   ∧ (doc_has_pdf doc = true ↔ doc_file_paths doc ≠ []))
           (documents st).
Proof.
  intros Hrun. split_and!.
  - intros t. revert Hrun.
    apply (process_bibtex_export_invariant fs
             (λ _ st, t ∈ all_tags st ↔ ∃ doc, doc ∈ documents st ∧ t ∈ doc_tags doc)).
    + cbn [empty_library all_tags documents]. split.
      * by intros ?%not_elem_of_empty.
      * by intros (doc & ?%not_elem_of_nil & _).
    + intros _ i entry organized st0 IH.
      cbn [state_after all_tags documents].
      rewrite elem_of_union, elem_of_list_to_set, IH. split.
      * intros [(doc & Hd & Ht)|Ht].
        -- exists doc. split; [apply elem_of_app; by left | done].
        -- exists (document_of i entry organized).
           split; [apply elem_of_app; right; by left | done].
      * intros (doc & [Hd|Hd%list_elem_of_singleton]%elem_of_app & Ht).
        -- left. by exists doc.
        -- right. by subst doc.
  - intros y. revert Hrun.
    apply (process_bibtex_export_invariant fs
             (λ _ st, y ∈ years st ↔
                      y ≠ "" ∧ ∃ doc, doc ∈ documents st
                                      ∧ doc_fields doc !! "year" = Some y)).
    + cbn [empty_library years documents]. split.
      * by intros ?%not_elem_of_empty.
      * by intros (_ & doc & ?%not_elem_of_nil & _).
    + intros _ i entry organized st0 IH.
      cbn [state_after years documents].
      assert (y ∈ (if Py.truthy (default "" (entry !! "year"))
                   then years st0 ∪ {[ default "" (entry !! "year") ]}
                   else years st0)
              ↔ y ∈ years st0 ∨ (y ≠ "" ∧ y = default "" (entry !! "year"))) as ->.
      { destruct (default "" (entry !! "year")) as [|a s] eqn:E; simpl.
        - split; [by left | intros [?|[? ?]]; done].
        - rewrite elem_of_union, elem_of_singleton. split.
          + intros [? | ->]; [by left | by right].
          + intros [?|[_ ?]]; [by left | by right]. }
      rewrite IH. split.
      * intros [(Hy & doc & Hd & Hyear)|(Hy & ->)].
        -- split; [done |]. exists doc. split; [apply elem_of_app; by left | done].
        -- split; [done |]. exists (document_of i entry organized).
           split; [apply elem_of_app; right; by left | apply document_of_year].
      * intros (Hy & doc & [Hd|Hd%list_elem_of_singleton]%elem_of_app & Hyear).
        -- left. split; [done |]. by exists doc.
        -- right. split; [done |]. subst doc.
           rewrite document_of_year in Hyear. by injection Hyear as <-.
  - intros c. revert Hrun.
    apply (process_bibtex_export_invariant fs
             (λ _ st, count_of (categories st) c
                      = length (filter (λ doc, doc_fields doc !! "category" = Some c)
                                       (documents st)))).
    + reflexivity.
    + intros _ i entry organized st0 IH.
      rewrite categories_step, IH. cbn [state_after documents].
      rewrite filter_app, length_app. f_equal.
      rewrite filter_cons, filter_nil, document_of_category.
      destruct (decide (categorize_entry entry = c)) as [->|Hne].
      * by rewrite decide_True.
      * rewrite decide_False; [done |]. by intros [= ?].
  - revert Hrun.
    apply (process_bibtex_export_invariant fs
             (λ _ st, pdf_count st
                      = length (filter (λ doc, doc_has_pdf doc = true) (documents st)))).
    + reflexivity.
    + intros _ i entry organized st0 IH.
      cbn [state_after pdf_count documents].
      rewrite filter_app, length_app, <- IH, filter_cons, filter_nil.
      cbn [document_of doc_has_pdf].
      destruct organized as [|p ps].
      * rewrite decide_False; [simpl; lia |].
        rewrite bool_decide_eq_false_2; [done | cbn [length]; lia].
      * rewrite decide_True; [simpl; lia |].
        rewrite bool_decide_eq_true_2; [done | cbn [length]; lia].
  - revert Hrun.
    apply (process_bibtex_export_invariant fs
             (λ _ st,
                Forall (λ doc, doc_pdf_count doc = length (doc_file_paths doc)
                               ∧ (doc_has_pdf doc = true ↔ doc_file_paths doc ≠ []))
                       (documents st))).
    + constructor.
    + intros _ i entry organized st0 IH.
      cbn [state_after documents]. apply Forall_app. split; [done |].
      constructor; [|constructor].
      cbn [document_of doc_pdf_count doc_file_paths doc_has_pdf].
      split; [done |]. rewrite bool_decide_eq_true.
      destruct organized; cbn [length]; split; try done; try lia.
Qed.

Lemma library_summary_from_documents_witness :
  ∃ st evs,
    process_bibtex_export net_zero_tree
      [net_zero_entry; <["keywords" := "energy;policy"]> snapshot_entry]
      ["export"] ["out"] = (Ret st, evs)
    ∧ pdf_count st = length (filter (λ doc, doc_has_pdf doc = true) (documents st))
    ∧ ("policy" ∈ all_tags st ↔ ∃ doc, doc ∈ documents st ∧ "policy" ∈ doc_tags doc).
Proof.
  assert (∃ st evs,
            process_bibtex_export net_zero_tree
              [net_zero_entry; <["keywords" := "energy;policy"]> snapshot_entry]
              ["export"] ["out"] = (Ret st, evs)) as (st & evs & Hrun).
  { vm_compute. eauto. }
  exists st, evs. split; [exact Hrun |].
  destruct (library_summary_from_documents _ _ _ _ _ _ Hrun)
    as (Htags & _ & _ & Hpdf & _).
  split; [exact Hpdf | exact (Htags "policy")].
Defined.

(** ** Entries without files *)

Section without_files.

Context (fs : FileSystem) (files_dir output_path : Path).

Lemma process_entries_without_files (entries : list (gmap string string)) :
  Forall (λ entry, find_pdf_in_files_folder fs entry files_dir = Ret []) entries →
  ∀ i st,
    ∃ st' docs,
      process_entries fs files_dir output_path i entries st = (Ret st', [])
      ∧ documents st' = documents st ++ docs
      ∧ Forall (λ doc, doc_file_paths doc = [] ∧ doc_has_pdf doc = false
                       ∧ doc_pdf_count doc = 0) docs
      ∧ pdf_count st' = pdf_count st.
Proof.
  induction 1 as [|entry entries Hnone _ IH]; intros i st.
  - exists st, []. by rewrite app_nil_r.
  - destruct (IH (S i) (state_after i entry [] st))
      as (st' & docs & Hrun & Hdocs & Hall & Hcount).
    exists st', (document_of i entry [] :: docs). split_and!.
    + cbn [process_entries].
      eapply (bind_ret_eq _ _ _ [] _ []); [|exact Hrun].
      by apply process_entry_without_files.
    + rewrite Hdocs. cbn [state_after documents]. by rewrite <- app_assoc.
    + constructor; [|done]. by split_and!.
    + by rewrite Hcount.
Qed.

End without_files.

(** When no file is found for any entry (in particular when the export has
    no files folder), a run of the driver that returns has copied no file
    and has created the three top-level directories and no other one, and
    in its library no document has a file path or a PDF. *)
Theorem library_without_files (fs : FileSystem)
    (entries : list (gmap string string)) (export_path output_path : Path)
    (st : library_state) (evs : list event) :
  Forall (λ entry,
            find_pdf_in_files_folder fs entry (joinpath export_path "files") = Ret [])
         entries →
  process_bibtex_export fs entries export_path output_path = (Ret st, evs) →
  copy_sources evs = []
  ∧ created_dirs evs = [output_path; joinpath output_path "metadata";
                        joinpath output_path "documents"]
  ∧ Forall (λ doc, doc_file_paths doc = [] ∧ doc_has_pdf doc = false
                   ∧ doc_pdf_count doc = 0) (documents st)
  ∧ pdf_count st = 0.
Proof.
  intros Hnone Hrun.
  destruct (process_entries_without_files fs (joinpath export_path "files")
              output_path entries Hnone 0 empty_library)
    as (st' & docs & Hloop & Hdocs & Hall & Hcount).
  unfold process_bibtex_export in Hrun. unfold mbind, M_bind, emit in Hrun.
  rewrite Hloop in Hrun. cbn [app] in Hrun.
  apply pair_equal_spec in Hrun as [Hst <-]. apply Ret_inj in Hst. subst st'.
  split_and!.
  - reflexivity.
  - reflexivity.
  - by rewrite Hdocs.
  - by rewrite Hcount.
Qed.

Lemma library_without_files_witness :
  ∃ st evs,
    process_bibtex_export (tree_fs []) [net_zero_entry; snapshot_entry]
      ["export"] ["out"] = (Ret st, evs)
    ∧ copy_sources evs = []
    ∧ created_dirs evs = [["out"]; ["out"; "metadata"]; ["out"; "documents"]]
    ∧ pdf_count st = 0.
Proof.
  eexists _, _. split; [vm_compute; reflexivity |].
  destruct (library_without_files (tree_fs []) [net_zero_entry; snapshot_entry]
              ["export"] ["out"] _ _ ltac:(repeat constructor) eq_refl)
    as (Hcopies & Hdirs & _ & Hcount).
  split_and!; [exact Hcopies | exact Hdirs | exact Hcount].
Defined.

(** ** Copies *)

Section copies.

Lemma copy_files_events (output_dir target_dir : Path) (base_filename : string)
    (count : nat) (pdf_files : list Path) :
  ∀ i paths evs,
    copy_files output_dir target_dir base_filename count i pdf_files = (Ret paths, evs) →
    length paths = length pdf_files
    ∧ copy_sources evs = pdf_files
    ∧ Forall (λ ev, ∃ src dst, ev = Copy src dst) evs.
Proof.
  induction pdf_files as [|pdf_file rest IH]; intros i paths evs H.
  - apply pair_equal_spec in H as [H <-]. apply Ret_inj in H. by subst paths.
  - cbn [copy_files] in H.
    apply bind_inv in H as ([] & t0 & t1 & Hemit & H & ->).
    apply pair_equal_spec in Hemit as [_ <-].
    apply bind_inv in H as (rel & t2 & t3 & Hrel & H & ->).
    apply pair_equal_spec in Hrel as [_ <-].
    apply bind_inv in H as (organized & t4 & t5 & Hrest & H & ->).
    apply pair_equal_spec in H as [H <-]. apply Ret_inj in H. subst paths.
    destruct (IH _ _ _ Hrest) as (Hlen & Hsrc & Hall).
    rewrite !app_nil_l, !app_nil_r. cbn [app]. split_and!.
    + cbn [length]. by rewrite Hlen.
    + unfold copy_sources in *. cbn [omap list_omap]. by rewrite Hsrc.
    + constructor; [by eexists _, _ | done].
Qed.

End copies.

(** When the organising step returns, it gives one path for each file, and
    what it did is: create one directory, then copy each of the files once,
    in their order.  It moves and deletes nothing. *)
Theorem organize_copies_each_file_once (pdf_files : list Path)
    (entry : gmap string string) (output_dir : Path)
    (paths : list string) (evs : list event) :
  organize_pdf_files pdf_files entry output_dir = (Ret paths, evs) →
  length paths = length pdf_files
  ∧ copy_sources evs = pdf_files
  ∧ (pdf_files = [] ∧ evs = []
     ∨ ∃ dir copies, evs = Mkdir dir :: copies
                     ∧ Forall (λ ev, ∃ src dst, ev = Copy src dst) copies).
Proof.
  unfold organize_pdf_files. destruct pdf_files as [|pdf_file rest].
  - intros H. apply pair_equal_spec in H as [H <-]. apply Ret_inj in H.
    subst paths. split_and!; [done | done | by left].
  - set (files := pdf_file :: rest). intros H.
    apply bind_inv in H as ([] & t0 & t1 & Hemit & H & ->).
    apply pair_equal_spec in Hemit as [_ <-].
    apply bind_inv in H as (first_author & t2 & t3 & Hauthor & H & ->).
    assert (t2 = []) as ->.
    { destruct (entry !! "author") as [author_text|].
      - apply bind_inv in Hauthor as (name & t4 & t5 & Hname & Hret & ->).
        apply pair_equal_spec in Hname as [_ <-].
        by apply pair_equal_spec in Hret as [_ <-].
      - by apply pair_equal_spec in Hauthor as [_ <-]. }
    apply copy_files_events in H as (Hlen & Hsrc & Hall).
    rewrite app_nil_l. cbn [app]. split_and!; [done | done |].
    right. by eexists _, _.
Qed.

Lemma organize_copies_each_file_once_witness :
  copy_sources
    [Mkdir ["out"; "documents"; "reports"; "unknown"];
     Copy ["export"; "files"; "docs"; "a.pdf"]
          ["out"; "documents"; "reports"; "unknown"; "_unknown_Clean_Air_Plan_1.pdf"];
     Copy ["export"; "files"; "docs"; "b.PDF"]
          ["out"; "documents"; "reports"; "unknown"; "_unknown_Clean_Air_Plan_2.pdf"]]
  = [["export"; "files"; "docs"; "a.pdf"]; ["export"; "files"; "docs"; "b.PDF"]].
Proof.
  apply (organize_copies_each_file_once
           [["export"; "files"; "docs"; "a.pdf"]; ["export"; "files"; "docs"; "b.PDF"]]
           two_files_entry ["out"]
           ["documents/reports/unknown/_unknown_Clean_Air_Plan_1.pdf";
            "documents/reports/unknown/_unknown_Clean_Air_Plan_2.pdf"]).
  vm_compute. reflexivity.
Defined.

(** ** The layout of the organised files *)

Section layout.

Implicit Types (s base : string) (p out : Path).

Lemma length_app_s (a b : string) :
  String.length (a +:+ b) = String.length a + String.length b.
Proof.
  induction a as [|x a IH]; [done |]. rewrite app_cons_s. simpl. by rewrite IH.
Qed.

Lemma contains_char_app (d : ascii) (a b : string) :
  Py.contains (String d "") (a +:+ b)
  = Py.contains (String d "") a || Py.contains (String d "") b.
Proof.
  induction a as [|x a IH].
  - rewrite app_nil_l_s. by rewrite contains_char_empty.
  - rewrite app_cons_s, !contains_char_cons, IH. by rewrite orb_assoc.
Qed.

Lemma str_of_nat_no_slash (n : nat) : Py.contains "/" (Py.str_of_nat n) = false.
Proof.
  unfold Py.str_of_nat. generalize (Nat.to_uint n). intros d.
  induction d as [|d IH|d IH|d IH|d IH|d IH|d IH|d IH|d IH|d IH|d IH];
    [reflexivity | cbn [NilEmpty.string_of_uint]; rewrite contains_char_cons; exact IH ..].
Qed.

Lemma no_slash_startswith s :
  Py.contains "/" s = false → Py.startswith "/" s = false.
Proof.
  destruct s as [|a s]; [done |]. rewrite contains_char_cons.
  intros [Ha _]%orb_false_iff. cbn [Py.startswith]. by rewrite Ha.
Qed.

Lemma path_of_str_plain s : plain_segment s → path_of_str s = [s].
Proof.
  intros (Hno & Hne & Hdot). unfold path_of_str.
  rewrite split_char_absent, no_slash_startswith by done.
  rewrite filter_cons, decide_True by done. by rewrite filter_nil.
Qed.

Lemma joinpath_plain p s : plain_segment s → joinpath p s = p ++ [s].
Proof.
  intros Hs. unfold joinpath. rewrite path_of_str_plain by done.
  destruct Hs as (Hno & Hne & _).
  destruct s as [|a s]; [done |].
  destruct a as [[] [] [] [] [] [] [] []]; try reflexivity.
  destruct s; [done | reflexivity].
Qed.

Lemma relative_to_app out (l : Path) : relative_to (out ++ l) out = Ret l.
Proof.
  unfold relative_to. rewrite decide_True by by exists l.
  by rewrite drop_app_length.
Qed.

Lemma category_plain (entry : gmap string string) :
  plain_segment (categorize_entry entry).
Proof.
  assert (categorize_entry entry ∈ category_names) as H.
  { unfold categorize_entry.
    destruct (categories_table !! _) as [category|] eqn:E; simpl.
    - by eapply categories_table_range.
    - unfold category_names. repeat constructor. }
  unfold category_names in H.
  repeat (apply elem_of_cons in H as [->|H]; [by split_and! |]).
  by apply not_elem_of_nil in H.
Qed.

Lemma numbered_filename_plain base (count i : nat) :
  Py.contains "/" base = false → plain_segment (numbered_filename base count i).
Proof.
  intros Hbase. unfold numbered_filename. destruct (1 <? count).
  - split_and!.
    + rewrite !contains_char_app, Hbase, str_of_nat_no_slash. reflexivity.
    + intros H. apply (f_equal String.length) in H.
      rewrite !length_app_s in H. simpl in H. lia.
    + intros H. apply (f_equal String.length) in H.
      rewrite !length_app_s in H. simpl in H. lia.
  - split_and!.
    + rewrite !contains_char_app, Hbase. reflexivity.
    + intros H. apply (f_equal String.length) in H.
      rewrite !length_app_s in H. simpl in H. lia.
    + intros H. apply (f_equal String.length) in H.
      rewrite !length_app_s in H. simpl in H. lia.
Qed.

Lemma first_author_part_no_slash (entry : gmap string string) (first_author : string) :
  first_author_part entry = Ret first_author → Py.contains "/" first_author = false.
Proof.
  unfold first_author_part. destruct (entry !! "author") as [author_text|].
  - destruct (first_author_name author_text) as [name|e]; [|done].
    intros <-%Ret_inj. apply safe_no_slash, clean_filename_all_safe.
  - by intros <-%Ret_inj.
Qed.

Lemma base_filename_no_slash (entry : gmap string string) (first_author : string) :
  first_author_part entry = Ret first_author →
  Py.contains "/" (default "unknown" (entry !! "year")) = false →
  Py.contains "/" (base_filename_of first_author entry) = false.
Proof.
  intros Hauthor Hyear. unfold base_filename_of.
  rewrite !contains_char_app, Hyear, (first_author_part_no_slash _ _ Hauthor).
  rewrite (safe_no_slash _ (clean_filename_all_safe _)). reflexivity.
Qed.

Lemma copy_files_layout out (tail : Path) base (count : nat) (pdf_files : list Path) :
  Py.contains "/" base = false →
  ∀ i,
    copy_files out (out ++ tail) base count i pdf_files
    = (Ret (imap (λ k _, path_str (tail ++ [numbered_filename base count (i + k)]))
                 pdf_files),
       imap (λ k pdf_file,
               Copy pdf_file (out ++ tail ++ [numbered_filename base count (i + k)]))
            pdf_files).
Proof.
  intros Hbase. induction pdf_files as [|pdf_file rest IH]; intros i; [done |].
  cbn [copy_files]. rewrite joinpath_plain by by apply numbered_filename_plain.
  rewrite <- (assoc_L (++)), relative_to_app.
  rewrite (IH (S i)). unfold mbind, M_bind, emit, lift, mret, M_ret.
  cbn [app imap]. rewrite Nat.add_0_r, app_nil_r. f_equal.
  - do 2 f_equal. apply imap_ext. intros k x _. unfold compose.
    by rewrite Nat.add_succ_comm.
  - f_equal. apply imap_ext. intros k x _. unfold compose.
    by rewrite Nat.add_succ_comm.
Qed.

End layout.

Section organised.

Context (pdf_files : list Path) (entry : gmap string string) (output_dir : Path).

(** What the model of the organising step computes when the first-author
    part can be read and the year is a plain path segment. *)
Lemma organize_pdf_files_plain (first_author : string) :
  pdf_files ≠ [] →
  first_author_part entry = Ret first_author →
  plain_segment (default "unknown" (entry !! "year")) →
  organize_pdf_files pdf_files entry output_dir
  = (Ret (imap (λ k _,
                  "documents/" +:+ categorize_entry entry +:+ "/"
                  +:+ default "unknown" (entry !! "year") +:+ "/"
                  +:+ numbered_filename (base_filename_of first_author entry)
                        (length pdf_files) k)
               pdf_files),
     Mkdir (output_dir ++ ["documents"; categorize_entry entry;
                           default "unknown" (entry !! "year")])
     :: imap (λ k pdf_file,
                Copy pdf_file
                  (output_dir ++ ["documents"; categorize_entry entry;
                                  default "unknown" (entry !! "year")]
                   ++ [numbered_filename (base_filename_of first_author entry)
                         (length pdf_files) k]))
             pdf_files).
Proof.
  intros Hne Hauthor Hyear. unfold organize_pdf_files.
  destruct pdf_files as [|pdf_file rest]; [done |].
  set (files := pdf_file :: rest).
  rewrite (joinpath_plain output_dir "documents") by done.
  rewrite (joinpath_plain _ (categorize_entry entry)) by apply category_plain.
  rewrite (joinpath_plain _ (default "unknown" (entry !! "year"))) by done.
  rewrite <- !(assoc_L (++)). cbn [app].
  assert ((match entry !! "author" with
           | Some author_text =>
               name ← lift (first_author_name author_text);
               mret (clean_filename name)
           | None => mret ""
           end : M string) = (Ret first_author, [])) as ->.
  { unfold first_author_part in Hauthor.
    destruct (entry !! "author") as [author_text|].
    - destruct (first_author_name author_text) as [name|e]; [|done].
      apply Ret_inj in Hauthor as <-. reflexivity.
    - apply Ret_inj in Hauthor as <-. reflexivity. }
  unfold mbind, M_bind, emit.
  fold (base_filename_of first_author entry).
  rewrite (copy_files_layout output_dir
             ["documents"; categorize_entry entry; default "unknown" (entry !! "year")]).
  - rewrite app_nil_l. cbn [app]. reflexivity.
  - apply base_filename_no_slash; [done | apply Hyear].
Qed.

(** The organising step returns only when the first-author part could be
    read. *)
Lemma organize_pdf_files_author (paths : list string) (evs : list event) :
  pdf_files ≠ [] →
  organize_pdf_files pdf_files entry output_dir = (Ret paths, evs) →
  ∃ first_author, first_author_part entry = Ret first_author.
Proof.
  intros Hne H. unfold organize_pdf_files in H.
  destruct pdf_files as [|pdf_file rest]; [done |].
  apply bind_inv in H as ([] & t0 & t1 & _ & H & _).
  apply bind_inv in H as (first_author & t2 & t3 & Hauthor & _ & _).
  unfold first_author_part.
  destruct (entry !! "author") as [author_text|]; [|by eexists].
  apply bind_inv in Hauthor as (name & t4 & t5 & Hname & _ & _).
  apply pair_equal_spec in Hname as [-> _]. by eexists.
Qed.

End organised.



Section distinct_names.

Lemma app_inv_tail_s (a b s : string) : a +:+ s = b +:+ s → a = b.
Proof.
  revert b. induction a as [|x a IH]; intros [|y b] H.
  - done.
  - apply (f_equal String.length) in H.
    rewrite app_nil_l_s, length_app_s in H. simpl in H. lia.
  - apply (f_equal String.length) in H.
    rewrite app_nil_l_s, length_app_s in H. simpl in H. lia.
  - rewrite !app_cons_s in H. injection H as -> H. f_equal. by apply IH.
Qed.

Lemma numbered_filename_inj (base : string) (count i j : nat) :
  1 < count →
  numbered_filename base count i = numbered_filename base count j → i = j.
Proof.
  intros Hcount. unfold numbered_filename.
  assert ((1 <? count) = true) as -> by by apply Nat.ltb_lt.
  intros H. apply (inj (String.app base)), (inj (String.app "_")) in H.
  apply app_inv_tail_s, str_of_nat_inj in H. lia.
Qed.

End distinct_names.

(** When the organising step returns, for an entry whose year (or [unknown]
    when it has none) is a plain path segment, it gives one path for each
    file and these paths are pairwise distinct: no copy of the entry
    overwrites another one. *)
Theorem organized_paths_distinct (pdf_files : list Path) (entry : gmap string string)
    (output_dir : Path) (paths : list string) (evs : list event) :
  organize_pdf_files pdf_files entry output_dir = (Ret paths, evs) →
  plain_segment (default "unknown" (entry !! "year")) →
  length paths = length pdf_files ∧ NoDup paths.
Proof.
  intros Hrun Hyear.
  destruct (decide (pdf_files = [])) as [->|Hne].
  { apply pair_equal_spec in Hrun as [Hpaths _]. apply Ret_inj in Hpaths.
    subst paths. split; [done | constructor]. }
  destruct (organize_pdf_files_author _ _ _ _ _ Hne Hrun) as [first_author Hauthor].
  rewrite (organize_pdf_files_plain _ _ _ first_author) in Hrun by done.
  apply pair_equal_spec in Hrun as [Hpaths _]. apply Ret_inj in Hpaths.
  subst paths. split; [by rewrite length_imap |].
  apply NoDup_alt. intros i j path Hi Hj.
  rewrite list_lookup_imap in Hi, Hj.
  destruct (pdf_files !! i) as [fi|] eqn:Ei; [|done].
  destruct (pdf_files !! j) as [fj|] eqn:Ej; [|done].
  simpl in Hi, Hj. rewrite <- Hj in Hi. clear Hj. injection Hi as Hi.
  destruct (decide (1 < length pdf_files)) as [Hlen|Hlen].
  - apply (inj (String.app _)) in Hi.
    repeat (apply (inj (String.app _)) in Hi ||
            apply (inj (String.append _)) in Hi).
    by eapply numbered_filename_inj.
  - apply lookup_lt_Some in Ei, Ej. lia.
Qed.

Lemma organized_paths_distinct_witness :
  NoDup ["documents/reports/unknown/_unknown_Clean_Air_Plan_1.pdf";
         "documents/reports/unknown/_unknown_Clean_Air_Plan_2.pdf"].
Proof.
  apply (organized_paths_distinct
           [["export"; "files"; "docs"; "a.pdf"]; ["export"; "files"; "docs"; "b.PDF"]]
           two_files_entry ["out"]
           ["documents/reports/unknown/_unknown_Clean_Air_Plan_1.pdf";
            "documents/reports/unknown/_unknown_Clean_Air_Plan_2.pdf"]
           [Mkdir ["out"; "documents"; "reports"; "unknown"];
            Copy ["export"; "files"; "docs"; "a.pdf"]
                 ["out"; "documents"; "reports"; "unknown"; "_unknown_Clean_Air_Plan_1.pdf"];
            Copy ["export"; "files"; "docs"; "b.PDF"]
                 ["out"; "documents"; "reports"; "unknown"; "_unknown_Clean_Air_Plan_2.pdf"]]).
  - vm_compute. reflexivity.
  - by split_and!.
Defined.

(** * Further properties of the analysis *)

(** ** What the full-text extraction reads *)

Section fulltext.

Context (ex : Extractors).

Lemma bind_mret {A B} (a : A) (f : A → M B) : mret a ≫= f = f a.
Proof. unfold mbind, M_bind, mret, M_ret. by destruct (f a). Qed.

Lemma extract_fulltext_loop_cons (rel_path : string) (rest : list string)
    (fulltext : string) :
  extract_fulltext_loop ex (rel_path :: rest) fulltext
  = (if Py.endswith ".pdf" (Py.lower (library_path rel_path)) then
       text ← extract_text_from_pdf ex (library_path rel_path);
       mret (fulltext +:+ text +:+ newline)
     else if Py.endswith ".html" (Py.lower (library_path rel_path)) then
       text ← extract_text_from_html ex (library_path rel_path);
       mret (fulltext +:+ text +:+ newline)
     else mret fulltext)
    ≫= extract_fulltext_loop ex rest.
Proof. reflexivity. Qed.

Lemma extract_fulltext_loop_filter (file_paths : list string) :
  ∀ fulltext,
    extract_fulltext_loop ex file_paths fulltext
    = extract_fulltext_loop ex (filter (λ p, is_extracted p = true) file_paths) fulltext.
Proof.
  induction file_paths as [|rel_path rest IH]; intros fulltext; [done |].
  rewrite filter_cons.
  destruct (Py.endswith ".pdf" (Py.lower (library_path rel_path))) eqn:Epdf.
  - assert (is_extracted rel_path = true) as Hext
      by (unfold is_extracted; by rewrite Epdf).
    rewrite decide_True by done. rewrite !extract_fulltext_loop_cons, Epdf.
    unfold mbind, M_bind.
    destruct (match extract_text_from_pdf ex (library_path rel_path) with
              | (Ret a, t) => _ | (Raise e, t) => _ end) as [[a|e] t]; [|done].
    by rewrite IH.
  - destruct (Py.endswith ".html" (Py.lower (library_path rel_path))) eqn:Ehtml.
    + assert (is_extracted rel_path = true) as Hext
        by (unfold is_extracted; by rewrite Epdf, Ehtml).
      rewrite decide_True by done. rewrite !extract_fulltext_loop_cons, Epdf, Ehtml.
      unfold mbind, M_bind.
      destruct (match extract_text_from_html ex (library_path rel_path) with
                | (Ret a, t) => _ | (Raise e, t) => _ end) as [[a|e] t]; [|done].
      by rewrite IH.
    + assert (is_extracted rel_path ≠ true) as Hext
        by (unfold is_extracted; by rewrite Epdf, Ehtml).
      rewrite decide_False by done.
      rewrite extract_fulltext_loop_cons, Epdf, Ehtml, bind_mret. apply IH.
Qed.

End fulltext.

(** Only PDF and HTML files are read: the full text of a list of files, and
    what is opened and printed on the way, are those of its files whose path
    ends, in any case, in [.pdf] or [.html].  With no such file the full
    text is empty and nothing is opened. *)
Theorem fulltext_reads_pdf_and_html_only (ex : Extractors) (file_paths : list string) :
  extract_fulltext_from_files ex file_paths
  = extract_fulltext_from_files ex (filter (λ p, is_extracted p = true) file_paths)
  ∧ (filter (λ p, is_extracted p = true) file_paths = [] →
     extract_fulltext_from_files ex file_paths = (Ret "", [])).
Proof.
  assert (extract_fulltext_from_files ex file_paths
          = extract_fulltext_from_files ex
              (filter (λ p, is_extracted p = true) file_paths)) as H
    by apply extract_fulltext_loop_filter.
  split; [exact H |]. intros Hnone. by rewrite H, Hnone.
Qed.

Lemma fulltext_reads_pdf_and_html_only_witness :
  extract_fulltext_from_files broken_pdf ["documents/a.docx"; "documents/notes.txt"]
  = (Ret "", []).
Proof.
  apply (fulltext_reads_pdf_and_html_only broken_pdf). reflexivity.
Defined.

(** ** A readable file *)

Section readable.

Lemma mapM_page_text_ret (texts : list (option string)) :
  mapM page_text (Ret <$> texts) = (Ret (default "" <$> texts), []).
Proof.
  induction texts as [|text texts IH]; [done |].
  rewrite !fmap_cons. cbn [mapM]. rewrite IH. reflexivity.
Qed.

End readable.

(** A PDF whose pages are all read gives the texts of its pages joined by
    newlines, a page without text counting as the empty string; an HTML file
    that is read gives its text.  Each costs one opening of the file and
    prints nothing. *)
Theorem readable_file_text (ex : Extractors) (path : string) :
  (∀ texts, PdfReader_pages ex path = Ret (Ret <$> texts) →
            extract_text_from_pdf ex path
            = (Ret (Py.join newline (default "" <$> texts)), [OpenPdf path]))
  ∧ (∀ text, soup_get_text ex path = Ret text →
             extract_text_from_html ex path = (Ret text, [OpenHtml path])).
Proof.
  split.
  - intros texts H. unfold extract_text_from_pdf, read_pdf.
    rewrite H. unfold lift, emit. unfold mbind at 1 2, M_bind at 1 2.
    rewrite mapM_page_text_ret. reflexivity.
  - intros text H. unfold extract_text_from_html, read_html. by rewrite H.
Qed.

Lemma readable_file_text_witness :
  extract_text_from_pdf
    {| PdfReader_pages := λ _, Ret [Ret (Some "Title page"); Ret None; Ret (Some "End")];
       soup_get_text := λ _, Ret "" |} "AIPolicies_db/a.pdf"
  = (Ret (Py.join newline ["Title page"; ""; "End"]), [OpenPdf "AIPolicies_db/a.pdf"]).
Proof.
  apply (proj1 (readable_file_text _ "AIPolicies_db/a.pdf")
           [Some "Title page"; None; Some "End"]).
  reflexivity.
Defined.

(** ** What the counters count *)

Section exact_counts.

Context (ex : Extractors).

Implicit Types (tag : string) (tags : list string) (counts : gmap string nat)
  (docs : list DocumentRecord).

Lemma occurrences_cons tag t tags :
  occurrences tag (t :: tags)
  = (if decide (t = tag) then 1 else 0) + occurrences tag tags.
Proof. unfold occurrences. rewrite filter_cons. by case_decide. Qed.

Lemma count_of_increment tag t counts :
  count_of (increment t counts) tag
  = count_of counts tag + (if decide (t = tag) then 1 else 0).
Proof.
  unfold count_of, increment. destruct (decide (t = tag)) as [->|Hne].
  - by rewrite lookup_insert_eq.
  - rewrite lookup_insert_ne by done. lia.
Qed.

Lemma count_of_count_tags tag tags counts :
  count_of (count_tags tags counts) tag = count_of counts tag + occurrences tag tags.
Proof.
  revert counts. unfold count_tags.
  induction tags as [|t tags IH]; intros counts.
  - unfold occurrences. simpl. lia.
  - cbn [foldl]. rewrite IH, count_of_increment, occurrences_cons. lia.
Qed.

Lemma key_of_increment tag t counts :
  is_Some (increment t counts !! tag) ↔ is_Some (counts !! tag) ∨ t = tag.
Proof.
  unfold increment. destruct (decide (t = tag)) as [->|Hne].
  - rewrite lookup_insert_eq. split; [by right | by eexists].
  - rewrite lookup_insert_ne by done. tauto.
Qed.

Lemma key_of_count_tags tag tags counts :
  is_Some (count_tags tags counts !! tag) ↔ is_Some (counts !! tag) ∨ tag ∈ tags.
Proof.
  revert counts. unfold count_tags.
  induction tags as [|t tags IH]; intros counts.
  - cbn [foldl]. split; [by left |]. by intros [?|?%not_elem_of_nil].
  - cbn [foldl]. rewrite IH, key_of_increment, elem_of_cons.
    split; [intros [[?|?]|?] | intros [?|[?|?]]]; auto.
Qed.

Lemma is_relevant_eq (doc : DocumentRecord) (relevant : bool) (evs : list event) :
  document_references_environment ex doc = (Ret relevant, evs) →
  is_relevant ex doc = relevant.
Proof. intros H. unfold is_relevant. by rewrite H. Qed.

Lemma group_stats_loop_counts docs :
  ∀ (env total env' total' : gmap string nat) evs,
    group_stats_loop ex docs env total = (Ret (env', total'), evs) →
    ∀ tag,
      count_of total' tag
      = count_of total tag + sum_list ((λ doc, occurrences tag (doc_tags doc)) <$> docs)
      ∧ count_of env' tag
        = count_of env tag
          + sum_list ((λ doc, occurrences tag (doc_tags doc))
                        <$> filter (λ doc, is_relevant ex doc = true) docs)
      ∧ (is_Some (total' !! tag) ↔
         is_Some (total !! tag) ∨ ∃ doc, doc ∈ docs ∧ tag ∈ doc_tags doc).
Proof.
  induction docs as [|doc rest IH]; intros env total env' total' evs H tag.
  - apply pair_equal_spec in H as [H _]. apply Ret_inj in H.
    injection H as <- <-. split_and!; [simpl; lia | simpl; lia |].
    split; [by left |]. by intros [?|(doc & ?%not_elem_of_nil & _)].
  - cbn [group_stats_loop] in H.
    apply bind_inv in H as (relevant & t & t' & Hdoc & H & _).
    apply is_relevant_eq in Hdoc.
    destruct (IH _ _ _ _ _ H tag) as (Htotal & Henv & Hkey).
    rewrite Htotal, Henv, Hkey, count_of_count_tags, key_of_count_tags.
    rewrite fmap_cons, filter_cons. cbn [sum_list_with].
    split_and!.
    + unfold id. lia.
    + destruct relevant.
      * rewrite decide_True by done. rewrite count_of_count_tags, fmap_cons.
        cbn [sum_list_with]. unfold id. lia.
      * rewrite decide_False by (rewrite Hdoc; done). done.
    + split.
      * intros [[?|?]|(d & Hd & Ht)]; [by left | |].
        -- right. exists doc. split; [by left | done].
        -- right. exists d. split; [by right | done].
      * intros [?|(d & [->|Hd]%elem_of_cons & Ht)].
        -- left. by left.
        -- left. by right.
        -- right. by exists d.
Qed.

End exact_counts.

(** The aggregation counts what it should: for every tag, the total count is
    the number of times the tag stands in the tag lists of the documents,
    and the relevant count is that number over the documents the classifier
    finds relevant; a tag is a key of the total counter exactly when some
    document carries it. *)
Theorem tag_counts_are_exact (ex : Extractors) (docs : list DocumentRecord) :
  ∃ env total evs,
    group_stats_by_tag ex docs = (Ret (env, total), evs)
    ∧ ∀ tag,
        count_of total tag
        = sum_list ((λ doc, occurrences tag (doc_tags doc)) <$> docs)
        ∧ count_of env tag
          = sum_list ((λ doc, occurrences tag (doc_tags doc))
                        <$> filter (λ doc, is_relevant ex doc = true) docs)
        ∧ (is_Some (total !! tag) ↔ ∃ doc, doc ∈ docs ∧ tag ∈ doc_tags doc).
Proof.
  destruct (group_stats_loop_bounded ex docs ∅ ∅) as (env & total & evs & H & _).
  { intros tag n. by rewrite lookup_empty. }
  exists env, total, evs. split; [exact H |]. intros tag.
  destruct (group_stats_loop_counts ex docs _ _ _ _ _ H tag) as (Ht & He & Hk).
  split_and!.
  - rewrite Ht. unfold count_of. by rewrite lookup_empty.
  - rewrite He. unfold count_of. by rewrite lookup_empty.
  - rewrite Hk, lookup_empty. split; [|by right].
    by intros [[? ?]|?].
Qed.

(** ** Filtering twice *)

(** Restricting the counters to a set of tags and then to a subset of it is
    restricting them to the subset at once; in particular restricting twice
    to the same set changes nothing. *)
Theorem filter_tags_twice (env total : gmap string nat) (narrow wide : gset string) :
  narrow ⊆ wide →
  filter_tags (filter_tags env total wide).1 (filter_tags env total wide).2 narrow
  = filter_tags env total narrow.
Proof.
  intros Hsub. unfold filter_tags. cbn [fst snd]. f_equal.
  - apply map_eq. intros tag. rewrite !filter_tags_lookup.
    destruct (decide (tag ∈ narrow)) as [Hin|]; [|done].
    rewrite count_of_filter_tags, decide_True; [done |]. by apply Hsub.
  - apply map_eq. intros tag. rewrite !filter_tags_lookup.
    destruct (decide (tag ∈ narrow)) as [Hin|]; [|done].
    rewrite count_of_filter_tags, decide_True; [done |]. by apply Hsub.
Qed.

Lemma filter_tags_twice_witness :
  filter_tags
    (filter_tags {[ "State" := 2; "City" := 1 ]} {[ "State" := 3; "City" := 4 ]}
       {[ "State"; "City"; "West" ]}).1
    (filter_tags {[ "State" := 2; "City" := 1 ]} {[ "State" := 3; "City" := 4 ]}
       {[ "State"; "City"; "West" ]}).2
    {[ "State"; "West" ]}
  = filter_tags {[ "State" := 2; "City" := 1 ]} {[ "State" := 3; "City" := 4 ]}
      {[ "State"; "West" ]}.
Proof.
  apply filter_tags_twice.
  intros tag [Ht%elem_of_singleton | Ht%elem_of_singleton]%elem_of_union; subst tag.
  - apply elem_of_union. left. apply elem_of_union. left. by apply elem_of_singleton.
  - apply elem_of_union. right. by apply elem_of_singleton.
Defined.
